(** * Gantt editor: storage codec, domain store and view-model projection

    A shallow embedding of [src/Gantt.tsx] (with the form dialogs that feed
    it).  The development follows the layering of the source file:

    - the storage codec ([serializeForStorage], [deserializeFromStorage],
      [loadFromStorage], [saveToStorage]) works on untyped values, exactly as
      the TypeScript does after types are erased;
    - the domain store (the four [useState] collections, their handlers and
      the persistence effects) works on the typed records [Rank], [RankPlan],
      [Assignment] and [Marker];
    - the view-model projection ([groupBy] and [representativeFeature]).

    What the JavaScript engine and its libraries provide is modelled after
    ECMA-262 (JSON.stringify, JSON.parse, Date, conversions), lodash
    ([groupBy]) and React ([useState], [useEffect]).  Scope of the model:
    finite numbers are integral (and below 10^21 where their digits are
    printed), strings are byte strings, and an object is the list of its own
    properties in creation order.  [Object.prototype] is followed where the
    source reads or writes through it under a name that the data chooses:
    the lookups [groups[key] || []] of the view-model and the assignment
    [converted[key] = ...] of the decoder. *)

From Stdlib Require Import ZArith Ascii.
From stdpp Require Import gmap strings list fin_maps pretty.

(** ** Exceptions *)

Inductive error := SyntaxError | TypeError | RangeError.

Inductive result (A : Type) :=
| Ok (a : A)
| Throw (e : error).
Arguments Ok {A} a.
Arguments Throw {A} e.

Global Instance result_ret : MRet result := @Ok.
Global Instance result_bind : MBind result := λ A B f m,
  match m with Ok a => f a | Throw e => Throw e end.
Global Instance result_fmap : FMap result := λ A B f m,
  match m with Ok a => Ok (f a) | Throw e => Throw e end.

(** [try { body } catch (error) { handler }] *)
Definition try_catch {A} (body : result A) (handler : error → result A) : result A :=
  match body with Ok a => Ok a | Throw e => handler e end.

(** ** Values *)

(** Numbers: the integral doubles, NaN and the two infinities. *)
Inductive number := NaN | NegInfinity | Finite (z : Z) | PosInfinity.

(** The time value of a Date object: milliseconds since the epoch, or [None]
    for NaN (an "Invalid Date"). *)
Definition time := option Z.

#[local] Set Warnings "-register-all".

Inductive value :=
| VUndefined
| VNull
| VBool (b : bool)
| VNum (n : number)
| VStr (s : string)
| VDate (t : time)
| VArr (elems : list value)
| VObj (props : list (string * value)).

Fixpoint lookup_prop (k : string) (props : list (string * value)) : option value :=
  match props with
  | [] => None
  | (k', v) :: rest => if decide (k' = k) then Some v else lookup_prop k rest
  end.

Definition has_prop (k : string) (props : list (string * value)) : bool :=
  bool_decide (is_Some (lookup_prop k props)).

(** [obj[k] = v] on an ordinary object: an existing property keeps its place. *)
Fixpoint set_prop (k : string) (v : value) (props : list (string * value))
  : list (string * value) :=
  match props with
  | [] => [(k, v)]
  | (k', v') :: rest =>
      if decide (k' = k) then (k, v) :: rest else (k', v') :: set_prop k v rest
  end.

Fixpoint value_depth (v : value) : nat :=
  match v with
  | VArr elems => S (foldr (λ x d, max (value_depth x) d) 0%nat elems)
  | VObj props => S (foldr (λ kv d, max (value_depth kv.2) d) 0%nat props)
  | _ => 0%nat
  end.

(** ** Date.prototype.toISOString and Date.prototype.toJSON *)

Definition msPerDay : Z := 86400000.

Definition zero_pad (width : nat) (n : Z) : string :=
  let digits := pretty n in
  String.concat "" (replicate (width - String.length digits) "0") +:+ digits.

(** Year, month and day of a day number counted from 1970-01-01, in the
    proleptic Gregorian calendar (ECMA-262, YearFromTime, MonthFromTime,
    DateFromTime), computed over 400-year eras that start on 1 March. *)
Definition civil_from_days (days : Z) : Z * Z * Z :=
  let z := (days + 719468)%Z in
  let era := (z `div` 146097)%Z in
  let doe := (z - era * 146097)%Z in
  let yoe := ((doe - doe `div` 1460 + doe `div` 36524 - doe `div` 146096) `div` 365)%Z in
  let doy := (doe - (365 * yoe + yoe `div` 4 - yoe `div` 100))%Z in
  let mp := ((5 * doy + 2) `div` 153)%Z in
  let d := (doy - (153 * mp + 2) `div` 5 + 1)%Z in
  let m := (if (mp <? 10)%Z then mp + 3 else mp - 9)%Z in
  let y := (yoe + era * 400 + (if (m <=? 2)%Z then 1 else 0))%Z in
  (y, m, d).

(** The text [YYYY-MM-DDTHH:mm:ss.sssZ] of a finite time value (years outside
    0..9999 take a sign and six digits). *)
Definition iso_string (tv : Z) : string :=
  let ms := (tv `mod` msPerDay)%Z in
  let '(y, m, d) := civil_from_days (tv `div` msPerDay) in
  let year :=
    if bool_decide (0 ≤ y ≤ 9999)%Z then zero_pad 4 y
    else (if (y <? 0)%Z then "-" else "+") +:+ zero_pad 6 (Z.abs y) in
  year +:+ "-" +:+ zero_pad 2 m +:+ "-" +:+ zero_pad 2 d +:+ "T" +:+
  zero_pad 2 (ms `div` 3600000) +:+ ":" +:+
  zero_pad 2 ((ms `div` 60000) `mod` 60) +:+ ":" +:+
  zero_pad 2 ((ms `div` 1000) `mod` 60) +:+ "." +:+
  zero_pad 3 (ms `mod` 1000) +:+ "Z".

(** [date.toISOString()]: a RangeError on an invalid date. *)
Definition toISOString (t : time) : result string :=
  match t with
  | Some tv => Ok (iso_string tv)
  | None => Throw RangeError
  end.

(** [Date.prototype.toJSON]: [null] for an invalid date, else
    [this.toISOString()]. *)
Definition Date_toJSON (t : time) : result value :=
  match t with
  | Some _ => VStr <$> toISOString t
  | None => Ok VNull
  end.

(** ** JSON.stringify *)

Definition dquote : ascii := "034"%char.
Definition backslash : ascii := "092"%char.

Definition hex_digit (n : N) : ascii :=
  match n with
  | 10 => "a" | 11 => "b" | 12 => "c" | 13 => "d" | 14 => "e" | 15 => "f"
  | _ => pretty_N_char n
  end%char%N.

(** One code unit of QuoteJSONString. *)
Definition quote_char (c : ascii) : string :=
  let n := N_of_ascii c in
  if decide (c = dquote) then String backslash (String dquote "")
  else if decide (c = backslash) then String backslash (String backslash "")
  else if decide (n = 8%N) then String backslash "b"
  else if decide (n = 9%N) then String backslash "t"
  else if decide (n = 10%N) then String backslash "n"
  else if decide (n = 12%N) then String backslash "f"
  else if decide (n = 13%N) then String backslash "r"
  else if decide (n < 32)%N then
    String backslash
      (String "u" (String "0" (String "0"
        (String (hex_digit (n `div` 16)) (String (hex_digit (n `mod` 16)) "")))))
  else String c "".

Fixpoint quote_chars (s : string) : string :=
  match s with
  | EmptyString => ""
  | String c rest => quote_char c +:+ quote_chars rest
  end.

Definition QuoteJSONString (s : string) : string :=
  String dquote (quote_chars s +:+ String dquote "").

(** SerializeJSONArray: an element without JSON text is written [null]. *)
Fixpoint serialize_elements (property : string → value → result (option string))
    (i : nat) (l : list value) : result (list string) :=
  match l with
  | [] => Ok []
  | x :: l' =>
      strP ← property (pretty i) x;
      rest ← serialize_elements property (S i) l';
      Ok (default "null" strP :: rest)
  end.

(** SerializeJSONObject: a property without JSON text is left out. *)
Fixpoint serialize_members (property : string → value → result (option string))
    (l : list (string * value)) : result (list string) :=
  match l with
  | [] => Ok []
  | (k, x) :: l' =>
      strP ← property k x;
      rest ← serialize_members property l';
      Ok match strP with
         | Some text => (QuoteJSONString k +:+ ":" +:+ text) :: rest
         | None => rest
         end
  end.

(** SerializeJSONProperty (ECMA-262, 25.5.2.2) with a replacer function.
    Step 2 calls the value's [toJSON] method when it has one (of the values
    modelled here, only Date objects do); step 3 then hands the result to the
    replacer; the rest dispatches on what the replacer returned.  [None] is
    the [undefined] of a value that has no JSON text.  The recursion budget
    [fuel] stands for the call stack: an engine throws a RangeError when it
    is exhausted. *)
Fixpoint SerializeJSONProperty (fuel : nat)
    (replacer : string → value → result value)
    (key : string) (v : value) : result (option string) :=
  match fuel with
  | O => Throw RangeError
  | S fuel' =>
      v1 ← match v with VDate t => Date_toJSON t | _ => Ok v end;
      v2 ← replacer key v1;
      match v2 with
      | VUndefined => Ok None
      | VNull => Ok (Some "null")
      | VBool b => Ok (Some (if b then "true" else "false"))
      | VNum (Finite z) => Ok (Some (pretty z))
      | VNum _ => Ok (Some "null")
      | VStr s => Ok (Some (QuoteJSONString s))
      | VDate _ => Ok (Some "{}")
      | VArr elems =>
          parts ← serialize_elements (SerializeJSONProperty fuel' replacer) 0 elems;
          Ok (Some ("[" +:+ String.concat "," parts +:+ "]"))
      | VObj props =>
          parts ← serialize_members (SerializeJSONProperty fuel' replacer) props;
          Ok (Some ("{" +:+ String.concat "," parts +:+ "}"))
      end
  end.

(** [JSON.stringify(data, replacer)]; the budget covers the depth of [data]
    and one more level for what a replacer may wrap around a leaf. *)
Definition JSON_stringify (replacer : string → value → result value) (data : value)
  : result (option string) :=
  SerializeJSONProperty (S (S (value_depth data))) replacer "" data.

(** The replacer of [serializeForStorage]:
    [if (value instanceof Date) return { __type: "Date", value: value.toISOString() };
     return value;] *)
Definition replacer : string → value → result value := λ _key value,
  match value with
  | VDate t =>
      iso ← toISOString t;
      Ok (VObj [("__type", VStr "Date"); ("value", VStr iso)])
  | _ => Ok value
  end.

Definition serializeForStorage (data : value) : result (option string) :=
  JSON_stringify replacer data.

(** ** What the engine leaves to the implementation *)

(** [Date_parse] is the time value of [new Date(text)]: ECMA-262 fixes it for
    the ISO format only and leaves every other text to the implementation.
    [Date_toString] is [Date.prototype.toString], whose text depends on the
    implementation and the time zone.  [StringToNumber] is the numeric value
    of a string. *)
Class Engine := {
  Date_parse : string → time;
  Date_toString : time → string;
  StringToNumber : string → number;
}.

(** ** JSON.parse *)

Definition is_ws (c : ascii) : bool :=
  bool_decide (c = " " ∨ c = "009" ∨ c = "010" ∨ c = "013")%char.

Fixpoint skip_ws (s : string) : string :=
  match s with
  | String c rest => if is_ws c then skip_ws rest else s
  | EmptyString => s
  end.

Definition digit_of (c : ascii) : option Z :=
  let n := Z.of_N (N_of_ascii c) in
  if bool_decide (48 ≤ n ≤ 57)%Z then Some (n - 48)%Z else None.

Definition hex_of (c : ascii) : option Z :=
  let n := Z.of_N (N_of_ascii c) in
  if bool_decide (48 ≤ n ≤ 57)%Z then Some (n - 48)%Z
  else if bool_decide (97 ≤ n ≤ 102)%Z then Some (n - 87)%Z
  else if bool_decide (65 ≤ n ≤ 70)%Z then Some (n - 55)%Z
  else None.

Fixpoint parse_digits (acc : Z) (s : string) : Z * string :=
  match s with
  | String c rest =>
      match digit_of c with
      | Some d => parse_digits (acc * 10 + d)%Z rest
      | None => (acc, s)
      end
  | EmptyString => (acc, s)
  end.

(** A JSON number.  The number model is integral: a literal with a fraction
    or an exponent is outside it and is not read. *)
Definition parse_number (s : string) : option (Z * string) :=
  let '(negative, s1) :=
    match s with
    | String "-" rest => (true, rest)
    | _ => (false, s)
    end in
  '(n, s2) ← match s1 with
             | String c rest =>
                 d ← digit_of c;
                 Some (if decide (d = 0%Z) then (0%Z, rest) else parse_digits d rest)
             | EmptyString => None
             end;
  match s2 with
  | String "." _ | String "e" _ | String "E" _ => None
  | _ => Some (if negative then (- n)%Z else n, s2)
  end.

Definition char_of (n : Z) : ascii := ascii_of_N (Z.to_N n).

(** The bytes (UTF-8) of the code unit of a [\uXXXX] escape; a surrogate is
    outside the model. *)
Definition unicode_escape (code : Z) : option string :=
  if bool_decide (code < 128)%Z then Some (String (char_of code) "")
  else if bool_decide (code < 2048)%Z then
    Some (String (char_of (192 + code `div` 64))
            (String (char_of (128 + code `mod` 64)) ""))
  else if bool_decide (55296 ≤ code ≤ 57343)%Z then None
  else
    Some (String (char_of (224 + code `div` 4096))
            (String (char_of (128 + (code `div` 64) `mod` 64))
               (String (char_of (128 + code `mod` 64)) ""))).

Definition simple_escape (c : ascii) : option ascii :=
  if decide (c = dquote) then Some dquote
  else if decide (c = backslash) then Some backslash
  else match c with
       | "/" => Some "/"
       | "b" => Some "008"
       | "f" => Some "012"
       | "n" => Some "010"
       | "r" => Some "013"
       | "t" => Some "009"
       | _ => None
       end%char.

(** The characters of a JSON string after its opening quote, and what
    follows the closing quote. *)
Fixpoint parse_string_chars (s : string) : option (string * string) :=
  match s with
  | EmptyString => None
  | String c rest =>
      if decide (c = dquote) then Some ("", rest)
      else if decide (c = backslash) then
        match rest with
        | String "u" (String h1 (String h2 (String h3 (String h4 rest')))) =>
            d1 ← hex_of h1; d2 ← hex_of h2; d3 ← hex_of h3; d4 ← hex_of h4;
            chars ← unicode_escape (((d1 * 16 + d2) * 16 + d3) * 16 + d4)%Z;
            '(str, after) ← parse_string_chars rest';
            Some (chars +:+ str, after)
        | String e rest' =>
            ch ← simple_escape e;
            '(str, after) ← parse_string_chars rest';
            Some (String ch str, after)
        | EmptyString => None
        end
      else if bool_decide (N_of_ascii c < 32)%N then None
      else
        '(str, after) ← parse_string_chars rest;
        Some (String c str, after)
  end.

(** A repeated member name overwrites the earlier member. *)
Definition object_of_members (members : list (string * value)) : value :=
  VObj (foldl (λ props kv, set_prop kv.1 kv.2 props) [] members).

Fixpoint parse_value (fuel : nat) (s : string) : option (value * string) :=
  match fuel with
  | O => None
  | S fuel' =>
      match skip_ws s with
      | String "n" (String "u" (String "l" (String "l" rest))) => Some (VNull, rest)
      | String "t" (String "r" (String "u" (String "e" rest))) => Some (VBool true, rest)
      | String "f" (String "a" (String "l" (String "s" (String "e" rest)))) =>
          Some (VBool false, rest)
      | String "[" rest =>
          match skip_ws rest with
          | String "]" rest' => Some (VArr [], rest')
          | _ => '(elems, rest') ← parse_elements fuel' rest; Some (VArr elems, rest')
          end
      | String "{" rest =>
          match skip_ws rest with
          | String "}" rest' => Some (VObj [], rest')
          | _ =>
              '(members, rest') ← parse_members fuel' rest;
              Some (object_of_members members, rest')
          end
      | String c rest =>
          if decide (c = dquote)
          then '(str, rest') ← parse_string_chars rest; Some (VStr str, rest')
          else '(n, rest') ← parse_number (String c rest); Some (VNum (Finite n), rest')
      | EmptyString => None
      end
  end
with parse_elements (fuel : nat) (s : string) : option (list value * string) :=
  match fuel with
  | O => None
  | S fuel' =>
      '(v, rest) ← parse_value fuel' s;
      match skip_ws rest with
      | String "," rest' =>
          '(vs, rest'') ← parse_elements fuel' rest'; Some (v :: vs, rest'')
      | String "]" rest' => Some ([v], rest')
      | _ => None
      end
  end
with parse_members (fuel : nat) (s : string)
  : option (list (string * value) * string) :=
  match fuel with
  | O => None
  | S fuel' =>
      match skip_ws s with
      | String c rest =>
          if decide (c = dquote) then
            '(k, rest1) ← parse_string_chars rest;
            match skip_ws rest1 with
            | String ":" rest2 =>
                '(v, rest3) ← parse_value fuel' rest2;
                match skip_ws rest3 with
                | String "," rest4 =>
                    '(ms, rest5) ← parse_members fuel' rest4;
                    Some ((k, v) :: ms, rest5)
                | String "}" rest4 => Some ([(k, v)], rest4)
                | _ => None
                end
            | _ => None
            end
          else None
      | EmptyString => None
      end
  end.

(** [JSON.parse(text)]: a SyntaxError unless the whole text is one JSON
    value.  Every call consumes a character at least every other level, so
    twice the length of the text bounds the depth of the recursion. *)
Definition JSON_parse (text : string) : result value :=
  match parse_value (2 * String.length text + 2) text with
  | Some (v, rest) =>
      match skip_ws rest with
      | EmptyString => Ok v
      | _ => Throw SyntaxError
      end
  | None => Throw SyntaxError
  end.

(** [localStorage]: the entries by key. *)
Abbreviation Storage := (gmap string string).

(** ** Conversions and operators *)

Section engine.
Context `{!Engine}.

(** [String(v)].  An array joins the texts of its elements ([null] and
    [undefined] give the empty text).  A plain object gives
    ["[object Object]"] through [Object.prototype.toString], unless an own
    property named [toString] shadows that method: such a property holds
    data, is not callable, and OrdinaryToPrimitive ends in a TypeError. *)
Fixpoint ToString (v : value) : result string :=
  match v with
  | VUndefined => Ok "undefined"
  | VNull => Ok "null"
  | VBool b => Ok (if b then "true" else "false")
  | VNum NaN => Ok "NaN"
  | VNum NegInfinity => Ok "-Infinity"
  | VNum PosInfinity => Ok "Infinity"
  | VNum (Finite z) => Ok (pretty z)
  | VStr s => Ok s
  | VDate t => Ok (Date_toString t)
  | VArr elems =>
      parts ← (fix join (l : list value) : result (list string) :=
                 match l with
                 | [] => Ok []
                 | x :: l' =>
                     text ← match x with
                            | VUndefined | VNull => Ok ""
                            | _ => ToString x
                            end;
                     rest ← join l';
                     Ok (text :: rest)
                 end) elems;
      Ok (String.concat "," parts)
  | VObj props =>
      if has_prop "toString" props then Throw TypeError else Ok "[object Object]"
  end.

(** [Number(v)]: an array or a plain object goes through its text. *)
Definition ToNumber (v : value) : result number :=
  match v with
  | VUndefined => Ok NaN
  | VNull => Ok (Finite 0)
  | VBool b => Ok (Finite (if b then 1 else 0))
  | VNum n => Ok n
  | VStr s => Ok (StringToNumber s)
  | VDate t => Ok (from_option Finite NaN t)
  | VArr _ | VObj _ => StringToNumber <$> ToString v
  end.

(** The truth value of [v] in a condition. *)
Definition ToBoolean (v : value) : bool :=
  match v with
  | VUndefined | VNull => false
  | VBool b => b
  | VNum (Finite z) => bool_decide (z ≠ 0%Z)
  | VNum NaN => false
  | VNum _ => true
  | VStr s => bool_decide (s ≠ "")
  | VDate _ | VArr _ | VObj _ => true
  end.

(** [v > 0] *)
Definition gt_zero (v : value) : result bool :=
  n ← ToNumber v;
  Ok match n with
     | Finite z => bool_decide (0 < z)%Z
     | PosInfinity => true
     | _ => false
     end.

(** TimeClip *)
Definition TimeClip (n : number) : time :=
  match n with
  | Finite z => if bool_decide (Z.abs z ≤ 8640000000000000)%Z then Some z else None
  | _ => None
  end.

(** The time value of [new Date(v)]: a Date is copied, a text is parsed,
    anything else is read as a number of milliseconds. *)
Definition new_Date (v : value) : result time :=
  match v with
  | VDate t => Ok t
  | VStr s => Ok (Date_parse s)
  | VArr _ | VObj _ => Date_parse <$> ToString v
  | _ => TimeClip <$> ToNumber v
  end.

(** The property read [x.k], for a name [k] that is neither an array index
    nor a member of a prototype: a TypeError on [null] and [undefined]. *)
Definition get_prop (x : value) (k : string) : result value :=
  match x with
  | VUndefined | VNull => Throw TypeError
  | VObj props => Ok (default VUndefined (lookup_prop k props))
  | VArr elems =>
      Ok (if decide (k = "length") then VNum (Finite (Z.of_nat (length elems)))
          else VUndefined)
  | VStr s =>
      Ok (if decide (k = "length") then VNum (Finite (Z.of_nat (String.length s)))
          else VUndefined)
  | _ => Ok VUndefined
  end.

(** The own enumerable properties that [{ ...x }] copies. *)
Definition spread (x : value) : list (string * value) :=
  match x with
  | VObj props => props
  | VArr elems => imap (λ i e, (pretty i, e)) elems
  | VStr s => imap (λ i c, (pretty i, VStr (String c ""))) (String.list_ascii_of_string s)
  | _ => []
  end.

(** ** The storage codec *)

(** [typeof obj === "object" && obj !== null && "__type" in obj &&
     obj.__type === "Date" && "value" in obj] on the properties of a plain
    object (an array or a Date has neither property). *)
Definition is_date_marker (props : list (string * value)) : bool :=
  match lookup_prop "__type" props with
  | Some (VStr tag) => bool_decide (tag = "Date") && has_prop "value" props
  | _ => false
  end.

(** [convertDates], the recursive walk of [deserializeFromStorage].  The
    keys that [Object.entries] lists are distinct, so [converted[key] = ...]
    adds a property to [converted], except under the name [__proto__]: there
    the assignment goes to the setter that [Object.prototype] has for that
    name and adds no property (a value that is an object or [null] becomes
    the prototype of [converted], which these values do not record; any
    other value is ignored).  A Date object passes [typeof obj === "object"]
    and has no entries: it comes out as the empty object [converted]. *)
Fixpoint convertDates (obj : value) : result value :=
  match obj with
  | VNull | VUndefined => Ok obj
  | VObj props =>
      if is_date_marker props then
        text ← ToString (default VUndefined (lookup_prop "value" props));
        Ok (VDate (Date_parse text))
      else
        VObj <$>
          (fix entries (l : list (string * value)) : result (list (string * value)) :=
             match l with
             | [] => Ok []
             | (key, value) :: l' =>
                 converted ← convertDates value;
                 rest ← entries l';
                 Ok (if decide (key = "__proto__") then rest
                     else (key, converted) :: rest)
             end) props
  | VArr elems =>
      VArr <$>
        (fix map (l : list value) : result (list value) :=
           match l with
           | [] => Ok []
           | x :: l' =>
               converted ← convertDates x;
               rest ← map l';
               Ok (converted :: rest)
           end) elems
  | VDate _ => Ok (VObj [])
  | _ => Ok obj
  end.

Definition deserializeFromStorage (json : string) : result value :=
  parsed ← JSON_parse json;
  convertDates parsed.

(** [loadFromStorage].  Inside the [try], [Some v] is the [return] under
    [if (stored)] (a missing entry is [null], and the empty text is falsy
    too) and [None] falls through; the [catch] logs and falls through. *)
Definition loadFromStorage (localStorage : Storage) (key : string) (defaultValue : value)
  : result value :=
  returned ← try_catch
    (match localStorage !! key with
     | Some stored =>
         if bool_decide (stored ≠ "")
         then Some <$> deserializeFromStorage stored
         else Ok None
     | None => Ok None
     end)
    (λ _error, Ok None);
  Ok (default defaultValue returned).

(** [saveToStorage] on a storage that takes the entry: [setItem] stores the
    text of its argument, so the [undefined] of a value without JSON text is
    stored as ["undefined"]; the [catch] logs and leaves the storage as it
    was.  (A [setItem] that throws, on a full storage, is caught in the same
    way; the storage here always has room.) *)
Definition saveToStorage (key : string) (v : value) (localStorage : Storage) : Storage :=
  match serializeForStorage v with
  | Ok text => <[key := default "undefined" text]> localStorage
  | Throw _error => localStorage
  end.

(** ** Initial state of the four collections *)

(** [stored.length > 0] *)
Definition nonempty (stored : value) : result bool :=
  len ← get_prop stored "length";
  gt_zero len.

(** [stored.map(f)]: only an array has the method. *)
Definition array_map (f : value → result value) (stored : value) : result value :=
  match stored with
  | VArr elems => VArr <$> mapM f elems
  | _ => Throw TypeError
  end.

(** [x instanceof Date ? x : new Date(x)] *)
Definition as_date (x : value) : result value :=
  match x with
  | VDate _ => Ok x
  | _ => VDate <$> new_Date x
  end.

(** [x ? (x instanceof Date ? x : new Date(x)) : undefined] *)
Definition as_optional_date (x : value) : result value :=
  if ToBoolean x then as_date x else Ok VUndefined.

Definition initial_ranks (localStorage : Storage) (initialRanks : value) : result value :=
  stored ← loadFromStorage localStorage "gantt-ranks" initialRanks;
  filled ← nonempty stored;
  Ok (if (filled : bool) then stored else initialRanks).

Definition initial_rankPlans (localStorage : Storage) (initialRankPlans : value)
  : result value :=
  stored ← loadFromStorage localStorage "gantt-rankPlans" initialRankPlans;
  filled ← nonempty stored;
  Ok (if (filled : bool) then stored else initialRankPlans).

(** The object literal of the [stored.map] callback for assignments. *)
Definition revive_assignment (assignment : value) : result value :=
  planStartDate ← get_prop assignment "planStartDate" ≫= as_date;
  planEndDate ← get_prop assignment "planEndDate" ≫= as_date;
  actualStartDate ← get_prop assignment "actualStartDate" ≫= as_optional_date;
  actualEndDate ← get_prop assignment "actualEndDate" ≫= as_optional_date;
  Ok (VObj (set_prop "actualEndDate" actualEndDate
             (set_prop "actualStartDate" actualStartDate
               (set_prop "planEndDate" planEndDate
                 (set_prop "planStartDate" planStartDate (spread assignment)))))).

Definition initial_assignments (localStorage : Storage) (initialAssignments : value)
  : result value :=
  stored ← loadFromStorage localStorage "gantt-assignments" initialAssignments;
  filled ← nonempty stored;
  if (filled : bool) then array_map revive_assignment stored else Ok initialAssignments.

(** The object literal of the [stored.map] callback for markers. *)
Definition revive_marker (marker : value) : result value :=
  date ← get_prop marker "date" ≫= as_date;
  Ok (VObj (set_prop "date" date (spread marker))).

Definition initial_markers (localStorage : Storage) (initialMarkers : value)
  : result value :=
  stored ← loadFromStorage localStorage "gantt-markers" initialMarkers;
  filled ← nonempty stored;
  if (filled : bool) then array_map revive_marker stored else Ok initialMarkers.

End engine.

(** ** The domain entities *)

Module Rank.
Record t := mk { id : string; name : string }.

Definition to_value (r : t) : value :=
  VObj [("id", VStr (id r)); ("name", VStr (name r))].
End Rank.

(** [Omit<Rank, "id">], what the rank form saves. *)
Module RankData.
Record t := mk { name : string }.
End RankData.

Module RankPlan.
Record t := mk { id : string; name : string; rankId : string }.

Definition to_value (p : t) : value :=
  VObj [("id", VStr (id p)); ("name", VStr (name p)); ("rankId", VStr (rankId p))].
End RankPlan.

Module RankPlanData.
Record t := mk { name : string; rankId : string }.
End RankPlanData.

Module Assignment.
Inductive kind := main | reliever.

Record t := mk {
  id : string;
  name : option string;
  type : kind;
  planStartDate : time;
  planEndDate : time;
  actualStartDate : option time;
  actualEndDate : option time;
  rankPlanId : string;
}.

Definition kind_text (k : kind) : string :=
  match k with main => "main" | reliever => "reliever" end.

(** The object as the store builds it, [{ id, ...assignmentData }]: the
    form passes every key, an empty optional field as [undefined]. *)
Definition to_value (a : t) : value :=
  VObj [("id", VStr (id a));
        ("name", from_option VStr VUndefined (name a));
        ("type", VStr (kind_text (type a)));
        ("planStartDate", VDate (planStartDate a));
        ("planEndDate", VDate (planEndDate a));
        ("actualStartDate", from_option VDate VUndefined (actualStartDate a));
        ("actualEndDate", from_option VDate VUndefined (actualEndDate a));
        ("rankPlanId", VStr (rankPlanId a))].
End Assignment.

(** [Omit<Assignment, "id">], what [AssignmentFormModal] passes to [onSave]:
  all seven keys, the optional ones possibly [undefined]. *)
Module AssignmentData.
Record t := mk {
  name : option string;
  type : Assignment.kind;
  planStartDate : time;
  planEndDate : time;
  actualStartDate : option time;
  actualEndDate : option time;
  rankPlanId : string;
}.
End AssignmentData.

Module Marker.
Record t := mk {
  id : string;
  date : time;
  label : string;
  className : option string;
}.

Definition to_value (m : t) : value :=
  VObj [("id", VStr (id m));
        ("date", VDate (date m));
        ("label", VStr (label m));
        ("className", from_option VStr VUndefined (className m))].
End Marker.

Module GanttStatus.
Record t := mk { id : string; name : string; color : string }.
End GanttStatus.

Module GanttFeature.
Record t := mk {
  id : string;
  name : string;
  startAt : time;
  endAt : time;
  status : GanttStatus.t;
}.
End GanttFeature.

(** ** The view-model projection *)

Definition getAssignmentStatus (type : Assignment.kind) : GanttStatus.t :=
  match type with
  | Assignment.main => GanttStatus.mk "main" "Main" "#3B82F6"
  | Assignment.reliever => GanttStatus.mk "reliever" "Reliever" "#10B981"
  end.

(** What is left of an optional string on the left of [||]: the empty
    string is falsy, as [undefined] and [null] are. *)
Definition or_null (x : option string) : option string :=
  match x with
  | Some EmptyString => None
  | _ => x
  end.

Definition assignmentToFeature (assignment : Assignment.t) : GanttFeature.t :=
  {| GanttFeature.id := Assignment.id assignment;
     GanttFeature.name := default "Unassigned" (or_null (Assignment.name assignment));
     GanttFeature.startAt := Assignment.planStartDate assignment;
     GanttFeature.endAt := Assignment.planEndDate assignment;
     GanttFeature.status := getAssignmentStatus (Assignment.type assignment) |}.

(** lodash's [groupBy(collection, property)]: the elements are visited in
    order; each is pushed onto the array under its key, which is created
    with that element when the result has no such key yet. *)
Definition groupBy {A} (iteratee : A → string) (collection : list A)
  : gmap string (list A) :=
  foldl (λ result x,
           <[iteratee x := default [] (result !! iteratee x) ++ [x]]> result)
        ∅ collection.

Definition rankPlansByRank (rankPlans : list RankPlan.t) : gmap string (list RankPlan.t) :=
  groupBy RankPlan.rankId rankPlans.

Definition assignmentsByRankPlan (assignments : list Assignment.t)
  : gmap string (list Assignment.t) :=
  groupBy Assignment.rankPlanId assignments.

(** [date.getTime()] *)
Definition getTime (d : time) : number := from_option Finite NaN d.

Definition number_min (a b : number) : number :=
  match a, b with
  | NaN, _ | _, NaN => NaN
  | NegInfinity, _ | _, NegInfinity => NegInfinity
  | PosInfinity, x | x, PosInfinity => x
  | Finite x, Finite y => Finite (Z.min x y)
  end.

Definition number_max (a b : number) : number :=
  match a, b with
  | NaN, _ | _, NaN => NaN
  | PosInfinity, _ | _, PosInfinity => PosInfinity
  | NegInfinity, x | x, NegInfinity => x
  | Finite x, Finite y => Finite (Z.max x y)
  end.

(** [Math.min(...xs)] and [Math.max(...xs)]: NaN as soon as an argument is
    NaN, and the infinities for no argument. *)
Definition Math_min (xs : list number) : number := foldr number_min PosInfinity xs.
Definition Math_max (xs : list number) : number := foldr number_max NegInfinity xs.

(** What a property read finds on [Object.prototype] (ECMA-262, 20.1.3 and
    B.2.2): a method, with the number of its parameters, which is its
    [length]; and under [__proto__] the prototype of the object that is
    read, [Object.prototype] itself. *)
Inductive member := Method (length : Z) | Prototype.

Definition Object_prototype_members : list (string * member) :=
  [("constructor", Method 1); ("hasOwnProperty", Method 1);
   ("isPrototypeOf", Method 1); ("propertyIsEnumerable", Method 1);
   ("toLocaleString", Method 0); ("toString", Method 0); ("valueOf", Method 0);
   ("__defineGetter__", Method 2); ("__defineSetter__", Method 2);
   ("__lookupGetter__", Method 1); ("__lookupSetter__", Method 1);
   ("__proto__", Prototype)].

Definition Object_prototype (name : string) : option member :=
  (list_to_map Object_prototype_members : gmap string member) !! name.

(** What [groups[key] || []] is, on the object that [groupBy] returns: the
    group that the object has under [key]; else what [Object.prototype] has
    under [key], none of which is falsy; else the empty array. *)
Inductive looked_up (A : Type) :=
| Elements (elements : list A)
| Inherited (m : member).
Arguments Elements {A} elements.
Arguments Inherited {A} m.

Definition group_or_empty {A} (groups : gmap string (list A)) (key : string)
  : looked_up A :=
  match groups !! key with
  | Some group => Elements group
  | None =>
      match Object_prototype key with
      | Some m => Inherited m
      | None => Elements []
      end
  end.

(** [x.length > 0]: [Object.prototype] has no [length], and [undefined > 0]
    is false. *)
Definition has_elements {A} (x : looked_up A) : bool :=
  match x with
  | Elements elements => bool_decide (0 < length elements)
  | Inherited (Method length) => bool_decide (0 < length)%Z
  | Inherited Prototype => false
  end.

(** [x.map(f)]: a TypeError on what has no [map]. *)
Definition map_elements {A B} (f : A → B) (x : looked_up A) : result (list B) :=
  match x with
  | Elements elements => Ok (f <$> elements)
  | Inherited _ => Throw TypeError
  end.

(** The [representativeFeature] of a rank plan in the sidebar; [today] is the
    [new Date()] taken just before, and [new Date(n)] of a number is
    [TimeClip n]. *)
Definition representativeFeature (today : time)
    (assignmentsByRankPlan : gmap string (list Assignment.t))
    (rankPlan : RankPlan.t) : result GanttFeature.t :=
  let planAssignments := group_or_empty assignmentsByRankPlan (RankPlan.id rankPlan) in
  startAt ←
    (if has_elements planAssignments
     then times ← map_elements (λ a, getTime (Assignment.planStartDate a)) planAssignments;
          Ok (TimeClip (Math_min times))
     else Ok today);
  endAt ←
    (if has_elements planAssignments
     then times ← map_elements (λ a, getTime (Assignment.planEndDate a)) planAssignments;
          Ok (TimeClip (Math_max times))
     else Ok today);
  Ok {| GanttFeature.id := RankPlan.id rankPlan;
        GanttFeature.name := RankPlan.name rankPlan;
        GanttFeature.startAt := startAt;
        GanttFeature.endAt := endAt;
        GanttFeature.status := GanttStatus.mk "default" "Default" "#6B7280" |}.

(** ** The component state *)

(** The twelve [useState] cells of [Gantt]. *)
Record GanttState := {
  ranks : list Rank.t;
  rankPlans : list RankPlan.t;
  assignments : list Assignment.t;
  markers : list Marker.t;
  rankModalOpen : bool;
  rankPlanModalOpen : bool;
  assignmentModalOpen : bool;
  editingRank : option Rank.t;
  editingRankPlan : option RankPlan.t;
  editingAssignment : option Assignment.t;
  selectedRankForPlan : option string;
  selectedRankPlanForAssignment : option string;
}.

Inductive collection := Ranks | RankPlans | Assignments | Markers.

Global Instance collection_eq_dec : EqDecision collection.
Proof. solve_decision. Defined.

(** The component between two renders: its state, the browser's
    [localStorage], and the collections whose setter was called since the
    last render.  Every setter call of this file installs a newly built array
    (a [map], a [filter], a spread or a literal), which is never the array of
    the previous render, so these are the collections whose persistence
    effect ([useEffect] with the collection as its dependency) runs after the
    next render. *)
Record World := {
  state : GanttState;
  localStorage : Storage;
  changed : list collection;
}.

Definition update_state (f : GanttState → GanttState) (w : World) : World :=
  {| state := f (state w); localStorage := localStorage w; changed := changed w |}.

Definition mark_changed (c : collection) (w : World) : World :=
  {| state := state w; localStorage := localStorage w; changed := c :: changed w |}.

Definition setRanks (f : list Rank.t → list Rank.t) (w : World) : World :=
  mark_changed Ranks (update_state (λ s,
    {| ranks := f (ranks s); rankPlans := rankPlans s; assignments := assignments s;
       markers := markers s; rankModalOpen := rankModalOpen s;
       rankPlanModalOpen := rankPlanModalOpen s;
       assignmentModalOpen := assignmentModalOpen s; editingRank := editingRank s;
       editingRankPlan := editingRankPlan s; editingAssignment := editingAssignment s;
       selectedRankForPlan := selectedRankForPlan s;
       selectedRankPlanForAssignment := selectedRankPlanForAssignment s |}) w).

Definition setRankPlans (f : list RankPlan.t → list RankPlan.t) (w : World) : World :=
  mark_changed RankPlans (update_state (λ s,
    {| ranks := ranks s; rankPlans := f (rankPlans s); assignments := assignments s;
       markers := markers s; rankModalOpen := rankModalOpen s;
       rankPlanModalOpen := rankPlanModalOpen s;
       assignmentModalOpen := assignmentModalOpen s; editingRank := editingRank s;
       editingRankPlan := editingRankPlan s; editingAssignment := editingAssignment s;
       selectedRankForPlan := selectedRankForPlan s;
       selectedRankPlanForAssignment := selectedRankPlanForAssignment s |}) w).

Definition setAssignments (f : list Assignment.t → list Assignment.t) (w : World) : World :=
  mark_changed Assignments (update_state (λ s,
    {| ranks := ranks s; rankPlans := rankPlans s; assignments := f (assignments s);
       markers := markers s; rankModalOpen := rankModalOpen s;
       rankPlanModalOpen := rankPlanModalOpen s;
       assignmentModalOpen := assignmentModalOpen s; editingRank := editingRank s;
       editingRankPlan := editingRankPlan s; editingAssignment := editingAssignment s;
       selectedRankForPlan := selectedRankForPlan s;
       selectedRankPlanForAssignment := selectedRankPlanForAssignment s |}) w).

Definition setMarkers (f : list Marker.t → list Marker.t) (w : World) : World :=
  mark_changed Markers (update_state (λ s,
    {| ranks := ranks s; rankPlans := rankPlans s; assignments := assignments s;
       markers := f (markers s); rankModalOpen := rankModalOpen s;
       rankPlanModalOpen := rankPlanModalOpen s;
       assignmentModalOpen := assignmentModalOpen s; editingRank := editingRank s;
       editingRankPlan := editingRankPlan s; editingAssignment := editingAssignment s;
       selectedRankForPlan := selectedRankForPlan s;
       selectedRankPlanForAssignment := selectedRankPlanForAssignment s |}) w).

(** The setters of the edit session: which dialog is open, on which entity. *)
Definition setRankModalOpen (open : bool) : World → World :=
  update_state (λ s,
    {| ranks := ranks s; rankPlans := rankPlans s; assignments := assignments s;
       markers := markers s; rankModalOpen := open;
       rankPlanModalOpen := rankPlanModalOpen s;
       assignmentModalOpen := assignmentModalOpen s; editingRank := editingRank s;
       editingRankPlan := editingRankPlan s; editingAssignment := editingAssignment s;
       selectedRankForPlan := selectedRankForPlan s;
       selectedRankPlanForAssignment := selectedRankPlanForAssignment s |}).

Definition setRankPlanModalOpen (open : bool) : World → World :=
  update_state (λ s,
    {| ranks := ranks s; rankPlans := rankPlans s; assignments := assignments s;
       markers := markers s; rankModalOpen := rankModalOpen s;
       rankPlanModalOpen := open;
       assignmentModalOpen := assignmentModalOpen s; editingRank := editingRank s;
       editingRankPlan := editingRankPlan s; editingAssignment := editingAssignment s;
       selectedRankForPlan := selectedRankForPlan s;
       selectedRankPlanForAssignment := selectedRankPlanForAssignment s |}).

Definition setAssignmentModalOpen (open : bool) : World → World :=
  update_state (λ s,
    {| ranks := ranks s; rankPlans := rankPlans s; assignments := assignments s;
       markers := markers s; rankModalOpen := rankModalOpen s;
       rankPlanModalOpen := rankPlanModalOpen s;
       assignmentModalOpen := open; editingRank := editingRank s;
       editingRankPlan := editingRankPlan s; editingAssignment := editingAssignment s;
       selectedRankForPlan := selectedRankForPlan s;
       selectedRankPlanForAssignment := selectedRankPlanForAssignment s |}).

Definition setEditingRank (editing : option Rank.t) : World → World :=
  update_state (λ s,
    {| ranks := ranks s; rankPlans := rankPlans s; assignments := assignments s;
       markers := markers s; rankModalOpen := rankModalOpen s;
       rankPlanModalOpen := rankPlanModalOpen s;
       assignmentModalOpen := assignmentModalOpen s; editingRank := editing;
       editingRankPlan := editingRankPlan s; editingAssignment := editingAssignment s;
       selectedRankForPlan := selectedRankForPlan s;
       selectedRankPlanForAssignment := selectedRankPlanForAssignment s |}).

Definition setEditingRankPlan (editing : option RankPlan.t) : World → World :=
  update_state (λ s,
    {| ranks := ranks s; rankPlans := rankPlans s; assignments := assignments s;
       markers := markers s; rankModalOpen := rankModalOpen s;
       rankPlanModalOpen := rankPlanModalOpen s;
       assignmentModalOpen := assignmentModalOpen s; editingRank := editingRank s;
       editingRankPlan := editing; editingAssignment := editingAssignment s;
       selectedRankForPlan := selectedRankForPlan s;
       selectedRankPlanForAssignment := selectedRankPlanForAssignment s |}).

Definition setEditingAssignment (editing : option Assignment.t) : World → World :=
  update_state (λ s,
    {| ranks := ranks s; rankPlans := rankPlans s; assignments := assignments s;
       markers := markers s; rankModalOpen := rankModalOpen s;
       rankPlanModalOpen := rankPlanModalOpen s;
       assignmentModalOpen := assignmentModalOpen s; editingRank := editingRank s;
       editingRankPlan := editingRankPlan s; editingAssignment := editing;
       selectedRankForPlan := selectedRankForPlan s;
       selectedRankPlanForAssignment := selectedRankPlanForAssignment s |}).

Definition setSelectedRankForPlan (selected : option string) : World → World :=
  update_state (λ s,
    {| ranks := ranks s; rankPlans := rankPlans s; assignments := assignments s;
       markers := markers s; rankModalOpen := rankModalOpen s;
       rankPlanModalOpen := rankPlanModalOpen s;
       assignmentModalOpen := assignmentModalOpen s; editingRank := editingRank s;
       editingRankPlan := editingRankPlan s; editingAssignment := editingAssignment s;
       selectedRankForPlan := selected;
       selectedRankPlanForAssignment := selectedRankPlanForAssignment s |}).

Definition setSelectedRankPlanForAssignment (selected : option string) : World → World :=
  update_state (λ s,
    {| ranks := ranks s; rankPlans := rankPlans s; assignments := assignments s;
       markers := markers s; rankModalOpen := rankModalOpen s;
       rankPlanModalOpen := rankPlanModalOpen s;
       assignmentModalOpen := assignmentModalOpen s; editingRank := editingRank s;
       editingRankPlan := editingRankPlan s; editingAssignment := editingAssignment s;
       selectedRankForPlan := selectedRankForPlan s;
       selectedRankPlanForAssignment := selected |}).

(** [localStorage.removeItem(key)] *)
Definition removeItem (key : string) (w : World) : World :=
  {| state := state w; localStorage := delete key (localStorage w); changed := changed w |}.

(** ** The persistence effects *)

Definition storage_key (c : collection) : string :=
  match c with
  | Ranks => "gantt-ranks"
  | RankPlans => "gantt-rankPlans"
  | Assignments => "gantt-assignments"
  | Markers => "gantt-markers"
  end.

(** The array a collection holds, as the codec receives it. *)
Definition snapshot (c : collection) (s : GanttState) : value :=
  match c with
  | Ranks => VArr (Rank.to_value <$> ranks s)
  | RankPlans => VArr (RankPlan.to_value <$> rankPlans s)
  | Assignments => VArr (Assignment.to_value <$> assignments s)
  | Markers => VArr (Marker.to_value <$> markers s)
  end.

(** [useEffect(() => { saveToStorage(key, collection); }, [collection])] *)
Definition persist (c : collection) (w : World) : World :=
  if bool_decide (c ∈ changed w)
  then {| state := state w;
          localStorage := saveToStorage (storage_key c) (snapshot c (state w)) (localStorage w);
          changed := changed w |}
  else w.

(** The commit of the render that follows an event: the four effects, in
    the order of their declaration, each only when its dependency changed.
    React runs them once the component and the chart below it have rendered;
    what they do is all that a render changes in the state and the
    storage. *)
Definition render (w : World) : World :=
  let w' := persist Markers (persist Assignments (persist RankPlans (persist Ranks w))) in
  {| state := state w'; localStorage := localStorage w'; changed := [] |}.

(** An event: the handler runs to its end, then React renders. *)
Definition dispatch (handler : World → World) (w : World) : World :=
  render (handler w).

(** ** The handlers *)

Definition handleRemoveMarker (id : string) : World → World :=
  setMarkers (filter (λ marker, Marker.id marker ≠ id)).

(** [id] is the [crypto.randomUUID()] of the call. *)
Definition handleCreateMarker (id : string) (date : time) : World → World :=
  setMarkers (λ prev,
    prev ++ [Marker.mk id date "New Marker" (Some "bg-blue-100 text-blue-900")]).

Definition handleMoveAssignment (id : string) (startAt : time) (endAt : option time)
    (w : World) : World :=
  match endAt with
  | None => w
  | Some endAt =>
      setAssignments (fmap (λ assignment,
        if decide (Assignment.id assignment = id)
        then {| Assignment.id := Assignment.id assignment;
                Assignment.name := Assignment.name assignment;
                Assignment.type := Assignment.type assignment;
                Assignment.planStartDate := startAt;
                Assignment.planEndDate := endAt;
                Assignment.actualStartDate := Assignment.actualStartDate assignment;
                Assignment.actualEndDate := Assignment.actualEndDate assignment;
                Assignment.rankPlanId := Assignment.rankPlanId assignment |}
        else assignment)) w
  end.

Definition handleCreateRank (w : World) : World :=
  setRankModalOpen true (setEditingRank None w).

(** [{ ...r, ...rankData }] *)
Definition merge_rank (r : Rank.t) (rankData : RankData.t) : Rank.t :=
  {| Rank.id := Rank.id r; Rank.name := RankData.name rankData |}.

(** [id] is the [crypto.randomUUID()] that a new rank would take. *)
Definition handleSaveRank (id : string) (rankData : RankData.t) (w : World) : World :=
  let saved :=
    match editingRank (state w) with
    | Some editing =>
        setRanks (fmap (λ r,
          if decide (Rank.id r = Rank.id editing) then merge_rank r rankData else r)) w
    | None =>
        setRanks (λ prev, prev ++ [Rank.mk id (RankData.name rankData)]) w
    end in
  setEditingRank None (setRankModalOpen false saved).

Definition handleCreateRankPlan (rankId : option string) (w : World) : World :=
  setRankPlanModalOpen true
    (setSelectedRankForPlan (or_null rankId) (setEditingRankPlan None w)).

(** [{ ...rp, ...rankPlanData }] *)
Definition merge_rankPlan (rp : RankPlan.t) (rankPlanData : RankPlanData.t) : RankPlan.t :=
  {| RankPlan.id := RankPlan.id rp;
     RankPlan.name := RankPlanData.name rankPlanData;
     RankPlan.rankId := RankPlanData.rankId rankPlanData |}.

Definition handleSaveRankPlan (id : string) (rankPlanData : RankPlanData.t) (w : World)
  : World :=
  let saved :=
    match editingRankPlan (state w) with
    | Some editing =>
        setRankPlans (fmap (λ rp,
          if decide (RankPlan.id rp = RankPlan.id editing)
          then merge_rankPlan rp rankPlanData else rp)) w
    | None =>
        setRankPlans (λ prev,
          prev ++ [RankPlan.mk id (RankPlanData.name rankPlanData)
                     (RankPlanData.rankId rankPlanData)]) w
    end in
  setSelectedRankForPlan None (setEditingRankPlan None (setRankPlanModalOpen false saved)).

Definition handleCreateAssignment (rankPlanId : option string) (w : World) : World :=
  setAssignmentModalOpen true
    (setSelectedRankPlanForAssignment (or_null rankPlanId) (setEditingAssignment None w)).

(** [{ id, ...assignmentData }], with [id] the one of [a] for the
    [{ ...a, ...assignmentData }] of an edit. *)
Definition with_id (id : string) (assignmentData : AssignmentData.t) : Assignment.t :=
  {| Assignment.id := id;
     Assignment.name := AssignmentData.name assignmentData;
     Assignment.type := AssignmentData.type assignmentData;
     Assignment.planStartDate := AssignmentData.planStartDate assignmentData;
     Assignment.planEndDate := AssignmentData.planEndDate assignmentData;
     Assignment.actualStartDate := AssignmentData.actualStartDate assignmentData;
     Assignment.actualEndDate := AssignmentData.actualEndDate assignmentData;
     Assignment.rankPlanId := AssignmentData.rankPlanId assignmentData |}.

Definition handleSaveAssignment (id : string) (assignmentData : AssignmentData.t)
    (w : World) : World :=
  let saved :=
    match editingAssignment (state w) with
    | Some editing =>
        setAssignments (fmap (λ a,
          if decide (Assignment.id a = Assignment.id editing)
          then with_id (Assignment.id a) assignmentData else a)) w
    | None =>
        setAssignments (λ prev, prev ++ [with_id id assignmentData]) w
    end in
  setSelectedRankPlanForAssignment None
    (setEditingAssignment None (setAssignmentModalOpen false saved)).

Definition handleEditAssignment (assignment : Assignment.t) (w : World) : World :=
  setAssignmentModalOpen true (setEditingAssignment (Some assignment) w).

Definition handleDeleteAssignment (id : string) : World → World :=
  setAssignments (filter (λ a, Assignment.id a ≠ id)).

(** [confirmed] is the answer of [window.confirm]. *)
Definition handleClearStorage (confirmed : bool) (w : World) : World :=
  if confirmed then
    setMarkers (λ _, [])
      (setAssignments (λ _, [])
        (setRankPlans (λ _, [])
          (setRanks (λ _, [])
            (removeItem "gantt-markers"
              (removeItem "gantt-assignments"
                (removeItem "gantt-rankPlans"
                  (removeItem "gantt-ranks" w)))))))
  else w.

(** ** An engine for the examples *)

(** The day number of a date of the proleptic Gregorian calendar, the inverse
    of [civil_from_days]. *)
Definition days_from_civil (y m d : Z) : Z :=
  let y' := (if (m <=? 2)%Z then y - 1 else y)%Z in
  let era := (y' `div` 400)%Z in
  let yoe := (y' - era * 400)%Z in
  let doy := ((153 * (if (2 <? m)%Z then m - 3 else m + 9) + 2) `div` 5 + d - 1)%Z in
  let doe := (yoe * 365 + yoe `div` 4 - yoe `div` 100 + doy)%Z in
  (era * 146097 + doe - 719468)%Z.

(** The digits at positions [from], ..., [from + len - 1] of a text, read as
    a number (a character that is no digit counts as zero; [iso_parse]
    compares the text with what it read). *)
Definition digits_at (from len : nat) (s : string) : Z :=
  (parse_digits 0 (String.substring from len s)).1.

(** [Date.parse] on the format of [toISOString] with a four-digit year; NaN
    on every other text. *)
Definition iso_parse (s : string) : time :=
  let tv := (days_from_civil (digits_at 0 4 s) (digits_at 5 2 s) (digits_at 8 2 s) * msPerDay
             + digits_at 11 2 s * 3600000 + digits_at 14 2 s * 60000
             + digits_at 17 2 s * 1000 + digits_at 20 3 s)%Z in
  if decide (iso_string tv = s) then Some tv else None.

(** The number a text of decimal digits denotes (zero for the empty text);
    NaN on every other text. *)
Definition decimal_number (s : string) : number :=
  match parse_digits 0 s with
  | (n, EmptyString) => Finite n
  | _ => NaN
  end.

Definition reference_engine : Engine :=
  {| Date_parse := iso_parse;
     Date_toString := from_option iso_string "Invalid Date";
     StringToNumber := decimal_number |}.

(** ** Notions used in the statements *)

(** A text between double quotes. *)
Definition quoted (s : string) : string := String dquote (s +:+ String dquote "").

(** An assignment as the store holds it after the assignment form saved it
    with the dates 2024-01-01 and 2024-01-31. *)
Definition sample_assignment : Assignment.t :=
  {| Assignment.id := "a1";
     Assignment.name := None;
     Assignment.type := Assignment.main;
     Assignment.planStartDate := Some 1704067200000%Z;
     Assignment.planEndDate := Some 1706659200000%Z;
     Assignment.actualStartDate := None;
     Assignment.actualEndDate := None;
     Assignment.rankPlanId := "p1" |}.

(** A marker as [handleCreateMarker] builds it, on 2024-01-01. *)
Definition sample_marker : Marker.t :=
  {| Marker.id := "m1";
     Marker.date := Some 1704067200000%Z;
     Marker.label := "New Marker";
     Marker.className := Some "bg-blue-100 text-blue-900" |}.

(** A reliever for the same rank plan, from 2024-01-15 to 2024-02-15. *)
Definition sample_reliever : Assignment.t :=
  {| Assignment.id := "a2";
     Assignment.name := Some "B. Cruz";
     Assignment.type := Assignment.reliever;
     Assignment.planStartDate := Some 1705276800000%Z;
     Assignment.planEndDate := Some 1707955200000%Z;
     Assignment.actualStartDate := Some (Some 1705363200000%Z);
     Assignment.actualEndDate := None;
     Assignment.rankPlanId := "p1" |}.

(** A populated store in which the three dialogs hold entities that have
    meanwhile left their collections. *)
Definition sample_state : GanttState :=
  {| ranks := [Rank.mk "r1" "Officer"];
     rankPlans := [RankPlan.mk "p1" "2024 Plan" "r1"];
     assignments := [sample_assignment; sample_reliever];
     markers := [sample_marker];
     rankModalOpen := true;
     rankPlanModalOpen := true;
     assignmentModalOpen := true;
     editingRank := Some (Rank.mk "r0" "Cadet");
     editingRankPlan := Some (RankPlan.mk "p0" "2023 Plan" "r1");
     editingAssignment :=
       Some {| Assignment.id := "a0";
               Assignment.name := None;
               Assignment.type := Assignment.main;
               Assignment.planStartDate := Some 0%Z;
               Assignment.planEndDate := Some 0%Z;
               Assignment.actualStartDate := None;
               Assignment.actualEndDate := None;
               Assignment.rankPlanId := "p1" |};
     selectedRankForPlan := None;
     selectedRankPlanForAssignment := None |}.

Definition sample_world : World :=
  {| state := sample_state; localStorage := ∅; changed := [] |}.

(** A value that went through the decoder: none of its plain objects is a
    tagged wrapper (its dates are Date objects). *)
Fixpoint already_decoded (v : value) : bool :=
  match v with
  | VArr elems => forallb already_decoded elems
  | VObj props =>
      negb (is_date_marker props) && forallb (λ kv, already_decoded kv.2) props
  | _ => true
  end.

Section statements.
Context `{!Engine}.

(** [decode(encode(v))]; [JSON.parse] reads the text of its argument, which
    for [undefined] is ["undefined"]. *)
Definition codec_roundtrip (v : value) : result value :=
  text ← serializeForStorage v;
  deserializeFromStorage (default "undefined" text).

(** The lazy initializer of the [useState] of a collection. *)
Definition initial_state (c : collection) : Storage → value → result value :=
  match c with
  | Ranks => initial_ranks
  | RankPlans => initial_rankPlans
  | Assignments => initial_assignments
  | Markers => initial_markers
  end.

(** Nothing can be decoded under [key]: the entry is absent, empty, or holds
    a text on which the decoder throws. *)
Definition unreadable (localStorage : Storage) (key : string) : Prop :=
  localStorage !! key = None ∨ localStorage !! key = Some "" ∨
  ∃ stored e, localStorage !! key = Some stored ∧ deserializeFromStorage stored = Throw e.

End statements.

(** The least and the greatest element of a list of time values. *)
Definition is_minimum (m : Z) (zs : list Z) : Prop := m ∈ zs ∧ ∀ z, z ∈ zs → (m ≤ z)%Z.
Definition is_maximum (m : Z) (zs : list Z) : Prop := m ∈ zs ∧ ∀ z, z ∈ zs → (z ≤ m)%Z.

(** A Date object that denotes an instant: its time value is a number within
    the range of TimeClip. *)
Definition instant (d : time) : option Z :=
  match d with
  | Some z => if bool_decide (Z.abs z ≤ 8640000000000000)%Z then Some z else None
  | None => None
  end.

(** [groups] is the grouping of [l] by [key]: every element is in the group
    of its key; a group holds only elements of its key; the groups together
    hold the elements of [l], each as often as [l] does; a group lists, in
    the order of [l], the elements of [l] with its key; no group is empty. *)
Definition is_grouping {A} (key : A → string) (l : list A)
    (groups : gmap string (list A)) : Prop :=
  (∀ x, x ∈ l → ∃ g, groups !! key x = Some g ∧ x ∈ g) ∧
  (∀ k g x, groups !! k = Some g → x ∈ g → key x = k) ∧
  concat ((map_to_list groups).*2) ≡ₚ l ∧
  (∀ k g, groups !! k = Some g → g = filter (λ x, key x = k) l) ∧
  (∀ k g, groups !! k = Some g → g ≠ []).

(** ** The text of a JSON value *)

Definition member_text (text : value → string) (kv : string * value) : string :=
  QuoteJSONString kv.1 +:+ ":" +:+ text kv.2.

(** The JSON text of a value made of [null], booleans, finite numbers,
    strings, arrays and plain objects, without white space, as
    [JSON.stringify] writes it. *)
Fixpoint JSON_text (j : value) : string :=
  match j with
  | VUndefined | VNull => "null"
  | VBool b => if b then "true" else "false"
  | VNum (Finite z) => pretty z
  | VNum _ => "null"
  | VStr s => QuoteJSONString s
  | VDate _ => "{}"
  | VArr elems => "[" +:+ String.concat "," (map JSON_text elems) +:+ "]"
  | VObj props => "{" +:+ String.concat "," (map (member_text JSON_text) props) +:+ "}"
  end.

(** What is left of a value in its JSON text: a valid date is the text of
    its instant; an invalid date and a number that is not finite are [null];
    [undefined] is [null] in an array, is left out of an object, and has no
    text at all on its own ([None]). *)
Fixpoint json_image (v : value) : option value :=
  match v with
  | VUndefined => None
  | VNum (Finite z) => Some v
  | VNum _ => Some VNull
  | VDate (Some tv) => Some (VStr (iso_string tv))
  | VDate None => Some VNull
  | VArr elems => Some (VArr (map (λ x, default VNull (json_image x)) elems))
  | VObj props => Some (VObj (omap (λ kv, pair kv.1 <$> json_image kv.2) props))
  | _ => Some v
  end.

(** The properties of every object of the tree have distinct names. *)
Fixpoint distinct_keys (v : value) : bool :=
  match v with
  | VArr elems => forallb distinct_keys elems
  | VObj props =>
      bool_decide (NoDup props.*1) && forallb (λ kv, distinct_keys kv.2) props
  | _ => true
  end.

(** A value that JSON can hold: no [undefined], no Date object, no number
    that is not finite. *)
Fixpoint plain (v : value) : bool :=
  match v with
  | VUndefined | VDate _ => false
  | VNum (Finite _) => true
  | VNum _ => false
  | VArr elems => forallb plain elems
  | VObj props => forallb (λ kv, plain kv.2) props
  | _ => true
  end.

(** No object of the tree has a property named [__proto__]. *)
Fixpoint proto_free (v : value) : bool :=
  match v with
  | VArr elems => forallb proto_free elems
  | VObj props =>
      bool_decide ("__proto__" ∉ props.*1) && forallb (λ kv, proto_free kv.2) props
  | _ => true
  end.

(** What may follow a value in a JSON text: nothing, or one of [,], []] and
    [}]. *)
Definition delimited (rest : string) : bool :=
  match rest with
  | EmptyString => true
  | String c _ => bool_decide (c = "," ∨ c = "]" ∨ c = "}")%char
  end.

(** The end of [parse_number], on what follows the digits. *)
Definition number_tail (negative : bool) (n : Z) (s2 : string) : option (Z * string) :=
  match s2 with
  | String "." _ | String "e" _ | String "E" _ => None
  | _ => Some (if negative then (- n)%Z else n, s2)
  end.

(** A character that can start the text of a value. *)
Definition value_start (c : ascii) : bool :=
  negb (is_ws c) && bool_decide (c ≠ "]" ∧ c ≠ "}" ∧ c ≠ "," ∧ c ≠ ":")%char.

Definition starts_value (s : string) : bool :=
  match s with String c _ => value_start c | EmptyString => false end.

(** The parser reads the text of [j] back, whatever follows it, with a
    budget of twice the length of the text. *)
Definition parses (j : value) : Prop :=
  ∀ fuel rest, delimited rest = true →
    (2 * String.length (JSON_text j) ≤ fuel)%nat →
    parse_value fuel (JSON_text j +:+ rest) = Some (j, rest).

(** ** The tagged form of a value *)

(** The tree in which every valid date is in the tagged form that the
    decoder revives, [{ __type: "Date", value: <ISO text> }]. *)
Fixpoint tagged (v : value) : value :=
  match v with
  | VDate (Some tv) => VObj [("__type", VStr "Date"); ("value", VStr (iso_string tv))]
  | VArr elems => VArr (map tagged elems)
  | VObj props => VObj (map (λ kv, (kv.1, tagged kv.2)) props)
  | _ => v
  end.

Section revival.
Context `{!Engine}.

(** A value that can come back from its tagged form: it has no [undefined]
    and no number that is not finite; its dates are valid, and the engine
    reads the ISO text of each back as the same instant; none of its objects
    has the shape of the tag, and the properties of each have distinct
    names, none of them [__proto__]. *)
Fixpoint revivable (v : value) : bool :=
  match v with
  | VUndefined => false
  | VNum (Finite _) => true
  | VNum _ => false
  | VDate (Some tv) => bool_decide (Date_parse (iso_string tv) = Some tv)
  | VDate None => false
  | VArr elems => forallb revivable elems
  | VObj props =>
      negb (is_date_marker props) && bool_decide (NoDup props.*1)
      && bool_decide ("__proto__" ∉ props.*1)
      && forallb (λ kv, revivable kv.2) props
  | _ => true
  end.

End revival.

(** ** The events of the component *)

(** The [onOpenChange] callbacks that [Gantt] passes to the three dialogs. *)
Definition rankModal_onOpenChange (open : bool) (w : World) : World :=
  let w' := setRankModalOpen open w in
  if open then w' else setEditingRank None w'.

Definition rankPlanModal_onOpenChange (open : bool) (w : World) : World :=
  let w' := setRankPlanModalOpen open w in
  if open then w' else setSelectedRankForPlan None (setEditingRankPlan None w').

Definition assignmentModal_onOpenChange (open : bool) (w : World) : World :=
  let w' := setAssignmentModalOpen open w in
  if open then w' else setSelectedRankPlanForAssignment None (setEditingAssignment None w').

(** What [Gantt] hands to the chart, the sidebar and the dialogs as
    callbacks, each with the arguments of one call.  An [id] of a save or of
    a marker creation is the [crypto.randomUUID()] of that call. *)
Inductive event :=
| RemoveMarker (id : string)
| CreateMarker (id : string) (date : time)
| MoveAssignment (id : string) (startAt : time) (endAt : option time)
| CreateRank
| SaveRank (id : string) (rankData : RankData.t)
| CreateRankPlan (rankId : option string)
| SaveRankPlan (id : string) (rankPlanData : RankPlanData.t)
| CreateAssignment (rankPlanId : option string)
| SaveAssignment (id : string) (assignmentData : AssignmentData.t)
| EditAssignment (assignment : Assignment.t)
| DeleteAssignment (id : string)
| ClearStorage (confirmed : bool)
| RankModalOpenChange (open : bool)
| RankPlanModalOpenChange (open : bool)
| AssignmentModalOpenChange (open : bool).

Definition handle (e : event) : World → World :=
  match e with
  | RemoveMarker id => handleRemoveMarker id
  | CreateMarker id date => handleCreateMarker id date
  | MoveAssignment id startAt endAt => handleMoveAssignment id startAt endAt
  | CreateRank => handleCreateRank
  | SaveRank id rankData => handleSaveRank id rankData
  | CreateRankPlan rankId => handleCreateRankPlan rankId
  | SaveRankPlan id rankPlanData => handleSaveRankPlan id rankPlanData
  | CreateAssignment rankPlanId => handleCreateAssignment rankPlanId
  | SaveAssignment id assignmentData => handleSaveAssignment id assignmentData
  | EditAssignment assignment => handleEditAssignment assignment
  | DeleteAssignment id => handleDeleteAssignment id
  | ClearStorage confirmed => handleClearStorage confirmed
  | RankModalOpenChange open => rankModal_onOpenChange open
  | RankPlanModalOpenChange open => rankPlanModal_onOpenChange open
  | AssignmentModalOpenChange open => assignmentModal_onOpenChange open
  end.

(** The component after its first render, from the state [s] that the
    initializers gave and the storage as it was found: on mount every effect
    runs. *)
Definition mounted (s : GanttState) (localStorage : Storage) : World :=
  render {| state := s; localStorage := localStorage;
            changed := [Ranks; RankPlans; Assignments; Markers] |}.

(** ** Reloading *)

Section reloading.
Context `{!Engine}.

(** A valid date whose ISO text the engine reads back as the same instant
    (ECMA-262 asks this of [Date.parse] for every valid date). *)
Definition reads_back (d : time) : Prop :=
  ∃ tv, d = Some tv ∧ Date_parse (iso_string tv) = Some tv.

Definition reloadable_assignment (a : Assignment.t) : Prop :=
  reads_back (Assignment.planStartDate a) ∧
  reads_back (Assignment.planEndDate a) ∧
  (∀ d, Assignment.actualStartDate a = Some d → reads_back d) ∧
  (∀ d, Assignment.actualEndDate a = Some d → reads_back d).

Definition reloadable_marker (m : Marker.t) : Prop := reads_back (Marker.date m).

(** Two values in which every property reads the same. *)
Definition same_fields (v v' : value) : Prop := ∀ k, get_prop v k = get_prop v' k.

(** What the reload makes of the invalid dates of an assignment. *)
Definition epoch_for_invalid (r : value) (a : Assignment.t) : Prop :=
  (Assignment.planStartDate a = None → get_prop r "planStartDate" = Ok (VDate (Some 0%Z))) ∧
  (Assignment.planEndDate a = None → get_prop r "planEndDate" = Ok (VDate (Some 0%Z))) ∧
  (Assignment.actualStartDate a = Some None → get_prop r "actualStartDate" = Ok VUndefined) ∧
  (Assignment.actualEndDate a = Some None → get_prop r "actualEndDate" = Ok VUndefined).

End reloading.

(** ** The life of the component *)

(** The state on mount: the four collections as their initializers gave
    them, and the initial values of the other eight [useState] cells. *)
Definition launch (initialRanks : list Rank.t) (initialRankPlans : list RankPlan.t)
    (initialAssignments : list Assignment.t) (initialMarkers : list Marker.t)
  : GanttState :=
  {| ranks := initialRanks; rankPlans := initialRankPlans;
     assignments := initialAssignments; markers := initialMarkers;
     rankModalOpen := false; rankPlanModalOpen := false; assignmentModalOpen := false;
     editingRank := None; editingRankPlan := None; editingAssignment := None;
     selectedRankForPlan := None; selectedRankPlanForAssignment := None |}.

(** The component as it can be found: mounted, then after any events. *)
Inductive reachable : World → Prop :=
| reachable_mounted initialRanks initialRankPlans initialAssignments initialMarkers
    localStorage :
    reachable (mounted (launch initialRanks initialRankPlans initialAssignments
                          initialMarkers) localStorage)
| reachable_event e w :
    reachable w → reachable (dispatch (handle e) w).

(** No two entities of a collection share an id. *)
Definition unique_ids (s : GanttState) : Prop :=
  NoDup (Rank.id <$> ranks s) ∧ NoDup (RankPlan.id <$> rankPlans s) ∧
  NoDup (Assignment.id <$> assignments s) ∧ NoDup (Marker.id <$> markers s).

(** The id that [crypto.randomUUID()] gave to the call is not yet the id of
    an entity of the collection it may join. *)
Definition fresh (e : event) (s : GanttState) : Prop :=
  match e with
  | CreateMarker id _ => id ∉ Marker.id <$> markers s
  | SaveRank id _ => id ∉ Rank.id <$> ranks s
  | SaveRankPlan id _ => id ∉ RankPlan.id <$> rankPlans s
  | SaveAssignment id _ => id ∉ Assignment.id <$> assignments s
  | _ => True
  end.

(** ** The rows of the chart *)

(** [rankPlansByRank[rank.id] || []] and
    [assignmentsByRankPlan[rankPlan.id] || []]. *)
Definition rankPlanList (s : GanttState) (rank : Rank.t) : looked_up RankPlan.t :=
  group_or_empty (rankPlansByRank (rankPlans s)) (Rank.id rank).

Definition planAssignments (s : GanttState) (rankPlan : RankPlan.t)
  : looked_up Assignment.t :=
  group_or_empty (assignmentsByRankPlan (assignments s)) (RankPlan.id rankPlan).

(** A [map] that leaves what is not an array as it is: how two readings of
    [groups[key] || []] compare. *)
Definition looked_up_map {A} (f : A → A) (x : looked_up A) : looked_up A :=
  match x with
  | Elements elements => Elements (f <$> elements)
  | Inherited m => Inherited m
  end.

(** [planAssignments.find((a) => a.id === feature.id)], in the render
    function of a row, whose [planAssignments] is the array that gave the
    row its features. *)
Definition find_assignment (planAssignments : list Assignment.t)
    (feature : GanttFeature.t) : option Assignment.t :=
  snd <$> list_find (λ a, Assignment.id a = GanttFeature.id feature) planAssignments.

(** [x.map(f)] for an [f] that may throw: the first exception ends the
    [map]. *)
Definition mapM_elements {A B} (f : A → result B) (x : looked_up A) : result (list B) :=
  match x with
  | Elements elements => mapM f elements
  | Inherited _ => Throw TypeError
  end.

(** The [GanttFeatureRow]s of the timeline, in order: one for each rank plan
    of each rank, with the rank plan and the [features] it is given. *)
Definition timeline_row (s : GanttState) (rankPlan : RankPlan.t)
  : result (RankPlan.t * list GanttFeature.t) :=
  features ← map_elements assignmentToFeature (planAssignments s rankPlan);
  Ok (rankPlan, features).

Definition timeline (s : GanttState) : result (list (RankPlan.t * list GanttFeature.t)) :=
  groups ← mapM (λ rank, mapM_elements (timeline_row s) (rankPlanList s rank)) (ranks s);
  Ok (concat groups).

(** No rank and no rank plan has the name of a member of [Object.prototype]
    for its id. *)
Definition ordinary_ids (s : GanttState) : Prop :=
  Forall (λ rank, Object_prototype (Rank.id rank) = None) (ranks s) ∧
  Forall (λ rankPlan, Object_prototype (RankPlan.id rankPlan) = None) (rankPlans s).



(** The assignment [handleMoveAssignment] makes of one with the id of the
    move. *)
Definition moved (startAt endAt : time) (assignment : Assignment.t) : Assignment.t :=
  {| Assignment.id := Assignment.id assignment;
     Assignment.name := Assignment.name assignment;
     Assignment.type := Assignment.type assignment;
     Assignment.planStartDate := startAt;
     Assignment.planEndDate := endAt;
     Assignment.actualStartDate := Assignment.actualStartDate assignment;
     Assignment.actualEndDate := Assignment.actualEndDate assignment;
     Assignment.rankPlanId := Assignment.rankPlanId assignment |}.

(** * Properties *)

(** ** Induction on values *)

Lemma value_tree_ind (P : value → Prop) :
  P VUndefined → P VNull → (∀ b, P (VBool b)) → (∀ n, P (VNum n)) →
  (∀ s, P (VStr s)) → (∀ t, P (VDate t)) →
  (∀ elems, Forall P elems → P (VArr elems)) →
  (∀ props, Forall (λ kv, P kv.2) props → P (VObj props)) →
  ∀ v, P v.
Proof.
  intros Hundef Hnull Hbool Hnum Hstr Hdate Harr Hobj.
  fix IH 1. intros [ | | b | n | s | t | elems | props].
  - exact Hundef.
  - exact Hnull.
  - apply Hbool.
  - apply Hnum.
  - apply Hstr.
  - apply Hdate.
  - apply Harr. induction elems as [|x elems IHelems]; constructor.
    + apply IH.
    + exact IHelems.
  - apply Hobj. induction props as [|[k x] props IHprops]; constructor.
    + apply IH.
    + exact IHprops.
Qed.

(** ** The encoder never tags a date *)

(** What step 2 of SerializeJSONProperty hands to the replacer is never a
    Date object: [Date.prototype.toJSON] has already turned it into a text
    (or into [null]).  The replacer of [serializeForStorage] therefore
    returns its argument at every call. *)
Lemma replacer_after_toJSON v v1 :
  match v with VDate t => Date_toJSON t | _ => Ok v end = Ok v1 →
  replacer "" v1 = Ok v1.
Proof.
  destruct v as [ | | b | n | s | [tv|] | elems | props]; simpl;
    intros [= <-]; reflexivity.
Qed.

Lemma SerializeJSONProperty_replacer fuel key v :
  SerializeJSONProperty fuel replacer key v
  = SerializeJSONProperty fuel (λ _ x, Ok x) key v.
Proof.
  revert key v. induction fuel as [|fuel IH]; intros key v; [reflexivity|].
  simpl.
  destruct (match v with VDate t => Date_toJSON t | _ => Ok v end) as [v1|e] eqn:Hv1;
    [|reflexivity].
  simpl. pose proof (replacer_after_toJSON _ _ Hv1) as Hr.
  unfold replacer in Hr |- *. rewrite Hr. simpl.
  clear Hv1 Hr.
  destruct v1 as [ | | b | n | s | t | elems | props]; try reflexivity.
  - f_equal. generalize 0%nat.
    induction elems as [|x elems IHelems]; intros i; [reflexivity|].
    simpl. rewrite IH, IHelems. reflexivity.
  - f_equal.
    induction props as [|[k x] props IHprops]; [reflexivity|].
    simpl. rewrite IH, IHprops. reflexivity.
Qed.

(** The budget of [JSON_stringify] is never exhausted by a replacer that
    changes nothing, and no other step of the serialization throws. *)
Lemma SerializeJSONProperty_total v :
  ∀ fuel key, (value_depth v < fuel)%nat →
    ∃ text, SerializeJSONProperty fuel (λ _ x, Ok x) key v = Ok text.
Proof.
  induction v as [ | | b | n | s | t | elems IHv | props IHv ] using value_tree_ind;
    intros [|fuel] key Hfuel; try lia; simpl; eauto.
  - destruct n; eauto.
  - destruct t; simpl; eauto.
  - simpl in Hfuel.
    assert (∀ i, ∃ parts,
      serialize_elements (SerializeJSONProperty fuel (λ _ x, Ok x)) i elems = Ok parts)
      as Hparts.
    { assert (foldr (λ x d, max (value_depth x) d) 0%nat elems < fuel)%nat as Hd by lia.
      clear Hfuel. induction IHv as [|x elems Hx _ IHelems]; intros i; simpl; [eauto|].
      simpl in Hd. destruct (Hx fuel (pretty i)) as [strP ->]; [lia|].
      destruct (IHelems ltac:(lia) (S i)) as [rest ->]. simpl. eauto. }
    destruct (Hparts 0%nat) as [parts ->]. simpl. eauto.
  - simpl in Hfuel.
    assert (∃ parts,
      serialize_members (SerializeJSONProperty fuel (λ _ x, Ok x)) props = Ok parts)
      as [parts ->].
    { assert (foldr (λ kv d, max (value_depth kv.2) d) 0%nat props < fuel)%nat as Hd by lia.
      clear Hfuel. induction IHv as [|[k x] props Hx _ IHprops]; simpl; [eauto|].
      simpl in Hd, Hx. destruct (Hx fuel k) as [strP ->]; [lia|].
      destruct (IHprops ltac:(lia)) as [rest ->]. simpl. eauto. }
    simpl. eauto.
Qed.

(** X1. The replacer has no effect: for every value, [serializeForStorage]
    produces what [JSON.stringify] produces with a replacer that changes
    nothing. *)
Lemma serializeForStorage_untagged (data : value) :
  serializeForStorage data = JSON_stringify (λ _ x, Ok x) data.
Proof. apply SerializeJSONProperty_replacer. Qed.

(** [serializeForStorage] returns for every value. *)
Lemma serializeForStorage_total (data : value) :
  ∃ text, serializeForStorage data = Ok text.
Proof.
  unfold serializeForStorage, JSON_stringify. rewrite SerializeJSONProperty_replacer.
  apply SerializeJSONProperty_total. lia.
Qed.

(** ** The storage codec *)

Section codec.
Context `{!Engine}.

Lemma convertDates_array elems :
  convertDates (VArr elems) = VArr <$> mapM convertDates elems.
Proof.
  reflexivity.
Qed.

Lemma convertDates_object props :
  is_date_marker props = false →
  convertDates (VObj props)
  = (λ entries, VObj (filter (λ kv, kv.1 ≠ "__proto__") entries))
      <$> mapM (λ kv, converted ← convertDates kv.2; Ok (kv.1, converted)) props.
Proof.
  intros Hmarker. simpl. rewrite Hmarker.
  match goal with |- _ <$> ?entries props = _ =>
    enough (entries props
            = filter (λ kv, kv.1 ≠ "__proto__")
                <$> mapM (λ kv, converted ← convertDates kv.2; Ok (kv.1, converted)) props)
      as ->
  end.
  { destruct (mapM _ props); reflexivity. }
  clear Hmarker. induction props as [|[k x] props IH]; [reflexivity|].
  rewrite IH.
  change (mapM ?f ((k, x) :: props))
    with (y ← (converted ← convertDates x; Ok (k, converted));
          rest ← mapM f props; Ok (y :: rest)).
  destruct (convertDates x) as [x'|]; [|reflexivity]. simpl.
  destruct (mapM _ props) as [rest|]; [|reflexivity]. simpl.
  rewrite filter_cons. simpl.
  destruct (decide (k = "__proto__")), (decide (k ≠ "__proto__")); done.
Qed.

(** On an object without a property named [__proto__] every member is
    kept. *)
Lemma convertDates_object_ordinary props :
  is_date_marker props = false → "__proto__" ∉ props.*1 →
  convertDates (VObj props)
  = VObj <$> mapM (λ kv, converted ← convertDates kv.2; Ok (kv.1, converted)) props.
Proof.
  intros Hmarker Hkeys. rewrite (convertDates_object _ Hmarker).
  destruct (mapM _ props) as [entries|] eqn:Hentries; [|reflexivity].
  simpl. do 2 f_equal.
  assert (entries.*1 = props.*1) as Hsame.
  { clear Hkeys Hmarker. revert entries Hentries.
    induction props as [|[k x] props IH]; intros entries Hentries.
    - injection Hentries as <-. reflexivity.
    - change (mapM ?f ((k, x) :: props))
        with (y ← (converted ← convertDates x; Ok (k, converted));
              rest ← mapM f props; Ok (y :: rest)) in Hentries.
      destruct (convertDates x) as [x'|]; [|done]. simpl in Hentries.
      destruct (mapM _ props) as [rest|]; [|done]. injection Hentries as <-.
      simpl. f_equal. apply IH. reflexivity. }
  rewrite <-Hsame in Hkeys. clear Hsame Hentries.
  induction entries as [|[k x] entries IH]; [reflexivity|].
  rewrite fmap_cons, not_elem_of_cons in Hkeys. destruct Hkeys as [Hk Hkeys].
  rewrite filter_cons_True by (intros Heq; apply Hk; symmetry; exact Heq).
  f_equal. apply IH, Hkeys.
Qed.

(** C1. The round trip through the codec does not return the value that went
    in: at the stored form of the markers, [decode(encode(v))] has the ISO
    text of the date where [v] has the date. *)
Theorem codec_roundtrip_returns_text_for_dates :
  codec_roundtrip (VArr [Marker.to_value sample_marker])
  = Ok (VArr [VObj [("id", VStr "m1");
                    ("date", VStr "2024-01-01T00:00:00.000Z");
                    ("label", VStr "New Marker");
                    ("className", VStr "bg-blue-100 text-blue-900")]]).
Proof. vm_compute. reflexivity. Qed.

(** C2. The encoder does not emit the tagged wrapper for a date: the text it
    produces for an object with a date field holds the plain ISO text of the
    date, although the replacer, were it handed the Date object, would
    return the wrapper. *)
Theorem serializeForStorage_writes_date_as_text :
  serializeForStorage (VObj [("planStartDate", VDate (Some 1704067200000%Z))])
  = Ok (Some ("{" +:+ quoted "planStartDate" +:+ ":" +:+
              quoted "2024-01-01T00:00:00.000Z" +:+ "}")) ∧
  replacer "planStartDate" (VDate (Some 1704067200000%Z))
  = Ok (VObj [("__type", VStr "Date"); ("value", VStr "2024-01-01T00:00:00.000Z")]).
Proof. split; vm_compute; reflexivity. Qed.

(** C5. [loadFromStorage] never throws: it returns what the decoder made of
    the stored text, or the default when the entry is absent or empty or the
    decoder threw. *)
Theorem loadFromStorage_returns (localStorage : Storage) (key : string)
    (defaultValue : value) :
  ∃ v, loadFromStorage localStorage key defaultValue = Ok v ∧
    ((∃ stored, localStorage !! key = Some stored ∧
                deserializeFromStorage stored = Ok v) ∨
     (v = defaultValue ∧ unreadable localStorage key)).
Proof.
  unfold loadFromStorage, unreadable.
  destruct (localStorage !! key) as [stored|] eqn:Hstored; simpl.
  - case_bool_decide as Hempty; simpl.
    + destruct (deserializeFromStorage stored) as [v|e] eqn:Hdecode; simpl.
      * exists v. split; [reflexivity|]. left. eauto.
      * exists defaultValue. split; [reflexivity|]. right. split; [reflexivity|].
        right. right. eauto.
    + exists defaultValue. split; [reflexivity|]. right. split; [reflexivity|].
      right. left. f_equal. destruct (decide (stored = "")); [done|]. contradiction.
  - exists defaultValue. split; [reflexivity|]. right. split; [reflexivity|]. by left.
Qed.

Lemma loadFromStorage_unreadable (localStorage : Storage) key defaultValue :
  unreadable localStorage key →
  loadFromStorage localStorage key defaultValue = Ok defaultValue.
Proof.
  unfold loadFromStorage. intros [Hkey|[Hkey|(stored & e & Hkey & Hdecode)]];
    rewrite Hkey; simpl; [reflexivity..|].
  case_bool_decide; simpl; [|reflexivity]. rewrite Hdecode. reflexivity.
Qed.

Lemma loadFromStorage_decoded (localStorage : Storage) key defaultValue stored v :
  localStorage !! key = Some stored →
  deserializeFromStorage stored = Ok v →
  loadFromStorage localStorage key defaultValue = Ok v.
Proof.
  intros Hkey Hdecode. unfold loadFromStorage. rewrite Hkey. simpl.
  case_bool_decide as Hempty; simpl.
  - rewrite Hdecode. reflexivity.
  - destruct (decide (stored = "")) as [->|]; [|contradiction].
    vm_compute in Hdecode. discriminate.
Qed.

(** A value of the kind [JSON.parse] returns, with no tagged wrapper and no
    property named [__proto__], goes through the conversion unchanged. *)
Lemma convertDates_plain (v : value) :
  plain v = true → already_decoded v = true → proto_free v = true →
  convertDates v = Ok v.
Proof.
  induction v as [ | | b | n | s | t | elems IH | props IH ] using value_tree_ind;
    intros Hplain Hdecoded Hproto; try done.
  - rewrite convertDates_array. simpl in Hplain, Hdecoded, Hproto.
    enough (mapM convertDates elems = Ok elems) as -> by reflexivity.
    induction IH as [|x elems Hx _ IHelems]; [reflexivity|].
    simpl in Hplain, Hdecoded, Hproto.
    apply andb_prop in Hplain as [Hp1 Hp2]. apply andb_prop in Hdecoded as [Hd1 Hd2].
    apply andb_prop in Hproto as [Hf1 Hf2].
    change (mapM convertDates (x :: elems))
      with (y ← convertDates x; k ← mapM convertDates elems; Ok (y :: k)).
    rewrite (Hx Hp1 Hd1 Hf1), (IHelems Hp2 Hd2 Hf2). reflexivity.
  - simpl in Hplain, Hdecoded, Hproto.
    apply andb_prop in Hdecoded as [Hmarker Hdecoded].
    apply andb_prop in Hproto as [Hkeys Hproto].
    apply negb_true_iff in Hmarker. apply bool_decide_eq_true in Hkeys.
    rewrite (convertDates_object_ordinary _ Hmarker Hkeys). clear Hmarker Hkeys.
    enough (mapM (λ kv, converted ← convertDates kv.2; Ok (kv.1, converted)) props
            = Ok props) as -> by reflexivity.
    induction IH as [|[k x] props Hx _ IHprops]; [reflexivity|].
    simpl in Hplain, Hdecoded, Hproto, Hx.
    apply andb_prop in Hplain as [Hp1 Hp2]. apply andb_prop in Hdecoded as [Hd1 Hd2].
    apply andb_prop in Hproto as [Hf1 Hf2].
    change (mapM ?f ((k, x) :: props))
      with (y ← (converted ← convertDates x; Ok (k, converted));
            rest ← mapM f props; Ok (y :: rest)).
    rewrite (Hx Hp1 Hd1 Hf1). simpl. rewrite (IHprops Hp2 Hd2 Hf2). reflexivity.
Qed.


End codec.

(** ** The initial state *)

Section startup.
Context `{!Engine}.

Lemma nonempty_array elems :
  nonempty (VArr elems) = Ok (bool_decide (0 < Z.of_nat (length elems))%Z).
Proof. reflexivity. Qed.

Lemma revive_assignment_typed (a : Assignment.t) :
  revive_assignment (Assignment.to_value a) = Ok (Assignment.to_value a).
Proof. destruct a as [id name type ps pe [acs|] [ace|] rp]; reflexivity. Qed.

Lemma revive_marker_typed (m : Marker.t) :
  revive_marker (Marker.to_value m) = Ok (Marker.to_value m).
Proof. destruct m; reflexivity. Qed.

Lemma array_map_fixed {A} (f : value → result value) (to_value : A → value) (l : list A) :
  (∀ x, f (to_value x) = Ok (to_value x)) →
  array_map f (VArr (to_value <$> l)) = Ok (VArr (to_value <$> l)).
Proof.
  intros Hf. unfold array_map. cbv beta iota.
  enough (mapM f (to_value <$> l) = Ok (to_value <$> l)) as -> by reflexivity.
  induction l as [|x l IH]; [reflexivity|].
  change (mapM f (to_value <$> x :: l))
    with (y ← f (to_value x); k ← mapM f (to_value <$> l); Ok (y :: k)).
  rewrite Hf, IH. reflexivity.
Qed.

(** With nothing to decode under its key, a collection starts from the
    initial values it was given. *)
Lemma initial_state_unreadable c (localStorage : Storage) (s : GanttState) :
  unreadable localStorage (storage_key c) →
  initial_state c localStorage (snapshot c s) = Ok (snapshot c s).
Proof.
  intros Hkey.
  destruct c; cbn [initial_state storage_key snapshot] in *;
    unfold initial_ranks, initial_rankPlans, initial_assignments, initial_markers;
    rewrite (loadFromStorage_unreadable _ _ _ Hkey); cbn [mbind result_bind];
    rewrite nonempty_array; cbn [mbind result_bind]; case_bool_decide; try reflexivity.
  - apply (array_map_fixed _ Assignment.to_value), revive_assignment_typed.
  - apply (array_map_fixed _ Marker.to_value), revive_marker_typed.
Qed.

(** C10. When the stored text of a collection decodes to the empty list, the
    collection starts from the initial values it was given, not from the
    decoded list; these are the values it starts from when there is nothing
    to decode (entry absent, empty or corrupt), for initial values that are
    an array of entities. *)
Theorem empty_snapshot_starts_from_initial c (localStorage : Storage) text initial :
  localStorage !! storage_key c = Some text →
  deserializeFromStorage text = Ok (VArr []) →
  initial_state c localStorage initial = Ok initial ∧
  ∀ (s : GanttState) (localStorage' : Storage),
    initial = snapshot c s →
    unreadable localStorage' (storage_key c) →
    initial_state c localStorage' initial = initial_state c localStorage initial.
Proof.
  intros Hkey Hdecode.
  assert (initial_state c localStorage initial = Ok initial) as Hinitial.
  { destruct c; simpl in *;
      unfold initial_ranks, initial_rankPlans, initial_assignments, initial_markers;
      rewrite (loadFromStorage_decoded _ _ _ _ _ Hkey Hdecode); reflexivity. }
  split; [exact Hinitial|].
  intros s localStorage' -> Hunreadable.
  rewrite Hinitial. apply initial_state_unreadable, Hunreadable.
Qed.

End startup.

(** ** The domain store *)

Lemma fmap_unless_id {A} (key : A → string) (id : string) (f : A → A) (l : list A) :
  id ∉ key <$> l →
  (λ x, if decide (key x = id) then f x else x) <$> l = l.
Proof.
  induction l as [|x l IH]; [reflexivity|].
  rewrite fmap_cons, not_elem_of_cons. intros [Hx Hl].
  simpl. rewrite decide_False by congruence. f_equal. apply IH, Hl.
Qed.

Lemma render_state w : state (render w) = state w.
Proof.
  unfold render, persist. repeat case_bool_decide; reflexivity.
Qed.

(** C6. Saving an edit of an entity whose id is not in the collection leaves
    the collection as it was; the handlers are total, so nothing is raised.
    [id] is the identifier that a creation would have used. *)
Theorem save_of_absent_id_changes_nothing (w : World) (id : string) :
  (∀ (editing : Rank.t) rankData,
     editingRank (state w) = Some editing →
     Rank.id editing ∉ Rank.id <$> ranks (state w) →
     ranks (state (dispatch (handleSaveRank id rankData) w)) = ranks (state w)) ∧
  (∀ (editing : RankPlan.t) rankPlanData,
     editingRankPlan (state w) = Some editing →
     RankPlan.id editing ∉ RankPlan.id <$> rankPlans (state w) →
     rankPlans (state (dispatch (handleSaveRankPlan id rankPlanData) w))
     = rankPlans (state w)) ∧
  (∀ (editing : Assignment.t) assignmentData,
     editingAssignment (state w) = Some editing →
     Assignment.id editing ∉ Assignment.id <$> assignments (state w) →
     assignments (state (dispatch (handleSaveAssignment id assignmentData) w))
     = assignments (state w)).
Proof.
  repeat split; intros editing data Hediting Habsent;
    unfold dispatch; rewrite render_state.
  - unfold handleSaveRank. rewrite Hediting. simpl.
    apply (fmap_unless_id Rank.id), Habsent.
  - unfold handleSaveRankPlan. rewrite Hediting. simpl.
    apply (fmap_unless_id RankPlan.id), Habsent.
  - unfold handleSaveAssignment. rewrite Hediting. simpl.
    apply (fmap_unless_id Assignment.id (Assignment.id editing)
             (λ a, with_id (Assignment.id a) data)), Habsent.
Qed.

(** C7. Deleting an assignment by id keeps, in their order, exactly the
    assignments with another id, each unchanged; with no assignment of that
    id the list is as it was. *)
Theorem delete_assignment_removes_exactly (w : World) (id : string) :
  let before := assignments (state w) in
  let after := assignments (state (dispatch (handleDeleteAssignment id) w)) in
  after = filter (λ a, Assignment.id a ≠ id) before ∧
  (∀ a, a ∈ after ↔ a ∈ before ∧ Assignment.id a ≠ id) ∧
  sublist after before ∧
  (id ∉ Assignment.id <$> before → after = before).
Proof.
  intros before after.
  assert (after = filter (λ a, Assignment.id a ≠ id) before) as Hafter.
  { unfold after, dispatch. rewrite render_state. reflexivity. }
  rewrite Hafter. split; [reflexivity|]. split; [|split].
  - intros a. rewrite list_elem_of_filter. tauto.
  - apply sublist_filter.
  - intros Habsent. clear Hafter after. induction before as [|a l IH]; [reflexivity|].
    rewrite fmap_cons, not_elem_of_cons in Habsent. destruct Habsent as [Ha Hl].
    rewrite filter_cons_True by congruence. f_equal. apply IH, Hl.
Qed.

Lemma serializeForStorage_empty : serializeForStorage (VArr []) = Ok (Some "[]").
Proof. reflexivity. Qed.

(** C9. The confirmed clear command empties the four collections, and its
    four [removeItem] calls leave no entry; but the render that follows runs
    the four persistence effects, which write the text of the empty list
    under each key: the entries are present afterwards. *)
Theorem clear_leaves_empty_list_entries (w : World) :
  let cleared := handleClearStorage true w in
  let w' := dispatch (handleClearStorage true) w in
  (∀ c, localStorage cleared !! storage_key c = None) ∧
  ranks (state w') = [] ∧ rankPlans (state w') = [] ∧
  assignments (state w') = [] ∧ markers (state w') = [] ∧
  (∀ c, localStorage w' !! storage_key c = Some "[]").
Proof.
  split; [|split_and!; try reflexivity].
  - intros c. simpl. destruct c; simpl;
      repeat first [ apply lookup_delete_eq | rewrite lookup_delete_ne by done ].
  - intros c. unfold dispatch, render, persist, handleClearStorage. simpl.
    unfold saveToStorage. simpl.
    destruct c; simpl;
      repeat first [ apply lookup_insert_eq | rewrite lookup_insert_ne by done ].
Qed.

(** ** The view-model projection *)

Section grouping.
Context {A : Type} (key : A → string).

Lemma groupBy_snoc (l : list A) (x : A) :
  groupBy key (l ++ [x])
  = <[key x := default [] (groupBy key l !! key x) ++ [x]]> (groupBy key l).
Proof. unfold groupBy. rewrite foldl_app. reflexivity. Qed.

(** The group under a key is the sublist of the elements with that key, and
    there is no group when there is no such element. *)
Lemma groupBy_lookup (l : list A) (k : string) :
  groupBy key l !! k
  = match filter (λ x, key x = k) l with [] => None | g => Some g end.
Proof.
  induction l as [|x l IH] using rev_ind; [reflexivity|].
  rewrite groupBy_snoc, filter_app.
  destruct (decide (key x = k)) as [<-|Hne].
  - rewrite lookup_insert_eq, IH, filter_cons_True, filter_nil by done.
    destruct (filter _ l); reflexivity.
  - rewrite lookup_insert_ne, IH, filter_cons_False, filter_nil, app_nil_r by done.
    reflexivity.
Qed.

Lemma groupBy_members (l : list A) :
  concat ((map_to_list (groupBy key l)).*2) ≡ₚ l.
Proof.
  induction l as [|x l IH] using rev_ind; [reflexivity|].
  rewrite groupBy_snoc. set (m := groupBy key l) in *.
  destruct (m !! key x) as [g|] eqn:Hg; simpl.
  - rewrite <-(insert_delete_id m (key x) g Hg) in IH.
    rewrite map_to_list_insert in IH by apply lookup_delete_eq.
    rewrite <-insert_delete_eq, map_to_list_insert by apply lookup_delete_eq.
    rewrite fmap_cons in IH |- *. simpl in IH |- *.
    rewrite <-IH, <-!(assoc_L (++)). f_equiv. apply Permutation_app_comm.
  - rewrite map_to_list_insert by done. rewrite fmap_cons. simpl.
    rewrite IH. apply Permutation_cons_append.
Qed.

Lemma groupBy_is_grouping (l : list A) : is_grouping key l (groupBy key l).
Proof.
  assert (∀ k g, groupBy key l !! k = Some g →
                 g = filter (λ x, key x = k) l ∧ g ≠ []) as Hgroup.
  { intros k g. rewrite groupBy_lookup.
    destruct (filter _ l) eqn:Hfilter; [done|]. intros [= <-]. done. }
  split_and!.
  - intros x Hx. rewrite groupBy_lookup.
    destruct (filter (λ y, key y = key x) l) as [|y g] eqn:Hfilter.
    + exfalso. eapply (filter_nil_not_elem_of _ l x); [exact Hfilter|reflexivity|exact Hx].
    + exists (y :: g). split; [reflexivity|].
      rewrite <-Hfilter. apply list_elem_of_filter. done.
  - intros k g x Hg Hx. apply Hgroup in Hg as [-> _].
    apply list_elem_of_filter in Hx as [Hk _]. exact Hk.
  - apply groupBy_members.
  - intros k g Hg. apply Hgroup, Hg.
  - intros k g Hg. apply Hgroup in Hg as [_ Hne]. exact Hne.
Qed.

End grouping.

(** C3. Grouping the rank plans by [rankId], and the assignments by
    [rankPlanId], puts every element in the group of its key and in no
    other; the groups together hold the elements of the list; a group keeps
    the order of the list; a key without element has no group. *)
Theorem grouping_invariant :
  (∀ rankPlans : list RankPlan.t,
     is_grouping RankPlan.rankId rankPlans (rankPlansByRank rankPlans)) ∧
  (∀ assignments : list Assignment.t,
     is_grouping Assignment.rankPlanId assignments (assignmentsByRankPlan assignments)).
Proof. split; intros l; apply groupBy_is_grouping. Qed.

Lemma instants_times (ds : list time) (zs : list Z) :
  instant <$> ds = Some <$> zs →
  getTime <$> ds = Finite <$> zs ∧ Forall (λ z, Z.abs z ≤ 8640000000000000)%Z zs.
Proof.
  revert zs. induction ds as [|d ds IH]; intros [|z zs] Heq; try done.
  rewrite !fmap_cons in Heq. rewrite !fmap_cons. injection Heq as Hd Hds.
  destruct (IH _ Hds) as [-> Hrange].
  destruct d as [z'|]; simpl in Hd; [|done].
  case_bool_decide; [|done]. injection Hd as ->. split; [reflexivity|].
  constructor; done.
Qed.

Lemma Math_min_finite (zs : list Z) :
  zs ≠ [] → ∃ m, Math_min (Finite <$> zs) = Finite m ∧ is_minimum m zs.
Proof.
  induction zs as [|z zs IH]; [done|]. intros _.
  destruct zs as [|z' zs].
  - exists z. split; [reflexivity|]. split; [apply list_elem_of_here|].
    intros y ->%list_elem_of_singleton. lia.
  - destruct IH as (m & Hm & Hin & Hle); [done|].
    exists (Z.min z m). split.
    + change (Math_min (Finite <$> z :: z' :: zs))
        with (number_min (Finite z) (Math_min (Finite <$> z' :: zs))).
      rewrite Hm. reflexivity.
    + split.
      * destruct (Z.min_spec z m) as [[_ ->]|[_ ->]];
          [apply list_elem_of_here|apply list_elem_of_further, Hin].
      * intros y [->|Hy]%elem_of_cons; [lia|]. specialize (Hle y Hy). lia.
Qed.

Lemma Math_max_finite (zs : list Z) :
  zs ≠ [] → ∃ m, Math_max (Finite <$> zs) = Finite m ∧ is_maximum m zs.
Proof.
  induction zs as [|z zs IH]; [done|]. intros _.
  destruct zs as [|z' zs].
  - exists z. split; [reflexivity|]. split; [apply list_elem_of_here|].
    intros y ->%list_elem_of_singleton. lia.
  - destruct IH as (m & Hm & Hin & Hle); [done|].
    exists (Z.max z m). split.
    + change (Math_max (Finite <$> z :: z' :: zs))
        with (number_max (Finite z) (Math_max (Finite <$> z' :: zs))).
      rewrite Hm. reflexivity.
    + split.
      * destruct (Z.max_spec z m) as [[_ ->]|[_ ->]];
          [apply list_elem_of_further, Hin|apply list_elem_of_here].
      * intros y [->|Hy]%elem_of_cons; [lia|]. specialize (Hle y Hy). lia.
Qed.

(** [new Date(Math.min(...))] and [new Date(Math.max(...))] over the times
    of dates that denote instants. *)
Lemma earliest_instant (ds : list time) (zs : list Z) :
  ds ≠ [] → instant <$> ds = Some <$> zs →
  ∃ m, TimeClip (Math_min (getTime <$> ds)) = Some m ∧ is_minimum m zs.
Proof.
  intros Hds Heq. destruct (instants_times _ _ Heq) as [-> Hrange].
  destruct (Math_min_finite zs) as (m & -> & Hmin).
  { intros ->. destruct ds; done. }
  exists m. split; [|exact Hmin].
  rewrite Forall_forall in Hrange. unfold TimeClip.
  rewrite bool_decide_eq_true_2; [reflexivity|]. apply Hrange, Hmin.
Qed.

Lemma latest_instant (ds : list time) (zs : list Z) :
  ds ≠ [] → instant <$> ds = Some <$> zs →
  ∃ m, TimeClip (Math_max (getTime <$> ds)) = Some m ∧ is_maximum m zs.
Proof.
  intros Hds Heq. destruct (instants_times _ _ Heq) as [-> Hrange].
  destruct (Math_max_finite zs) as (m & -> & Hmax).
  { intros ->. destruct ds; done. }
  exists m. split; [|exact Hmax].
  rewrite Forall_forall in Hrange. unfold TimeClip.
  rewrite bool_decide_eq_true_2; [reflexivity|]. apply Hrange, Hmax.
Qed.

Lemma group_or_empty_own {A} (key : A → string) (l : list A) (k : string) :
  filter (λ x, key x = k) l ≠ [] →
  group_or_empty (groupBy key l) k = Elements (filter (λ x, key x = k) l).
Proof.
  intros Hown. unfold group_or_empty. rewrite groupBy_lookup.
  destruct (filter _ l); done.
Qed.


(** The span of a rank plan that has assignments. *)
Lemma representativeFeature_own (today : time) (assignments : list Assignment.t)
    (rankPlan : RankPlan.t) :
  let own := filter (λ a, Assignment.rankPlanId a = RankPlan.id rankPlan) assignments in
  own ≠ [] →
  representativeFeature today (assignmentsByRankPlan assignments) rankPlan
  = Ok {| GanttFeature.id := RankPlan.id rankPlan;
          GanttFeature.name := RankPlan.name rankPlan;
          GanttFeature.startAt :=
            TimeClip (Math_min (getTime <$> (Assignment.planStartDate <$> own)));
          GanttFeature.endAt :=
            TimeClip (Math_max (getTime <$> (Assignment.planEndDate <$> own)));
          GanttFeature.status := GanttStatus.mk "default" "Default" "#6B7280" |}.
Proof.
  intros own Hown. unfold representativeFeature, assignmentsByRankPlan.
  rewrite (group_or_empty_own Assignment.rankPlanId) by exact Hown. fold own.
  cbn [has_elements map_elements].
  rewrite bool_decide_eq_true_2 by (destruct own; [done|simpl; lia]).
  cbn [mbind result_bind]. rewrite <-!list_fmap_compose. reflexivity.
Qed.



(** * The statements at concrete inputs *)



Lemma empty_snapshot_starts_from_initial_witness :
  let localStorage : Storage := {["gantt-assignments" := "[]"]} in
  let initial := snapshot Assignments sample_state in
  @initial_state reference_engine Assignments localStorage initial = Ok initial ∧
  @initial_state reference_engine Assignments ∅ initial
  = @initial_state reference_engine Assignments localStorage initial.
Proof.
  destruct (@empty_snapshot_starts_from_initial reference_engine Assignments
              {["gantt-assignments" := "[]"]} "[]"
              (snapshot Assignments sample_state)) as [Hinitial Hsame].
  - vm_compute. reflexivity.
  - vm_compute. reflexivity.
  - split; [exact Hinitial|].
    apply (Hsame sample_state ∅); [reflexivity|]. left. reflexivity.
Defined.

Lemma save_of_absent_id_changes_nothing_witness :
  ranks (state (dispatch (handleSaveRank "r2" (RankData.mk "Chief")) sample_world))
  = [Rank.mk "r1" "Officer"] ∧
  rankPlans (state (dispatch (handleSaveRankPlan "p2" (RankPlanData.mk "2025 Plan" "r1"))
                      sample_world))
  = [RankPlan.mk "p1" "2024 Plan" "r1"] ∧
  assignments (state (dispatch
    (handleSaveAssignment "a3"
       (AssignmentData.mk None Assignment.main (Some 0%Z) (Some 0%Z) None None "p1"))
    sample_world))
  = [sample_assignment; sample_reliever].
Proof.
  split_and!.
  - apply (proj1 (save_of_absent_id_changes_nothing sample_world "r2")
             (Rank.mk "r0" "Cadet")); [reflexivity|].
    apply (bool_decide_unpack _). vm_compute. exact I.
  - apply (proj1 (proj2 (save_of_absent_id_changes_nothing sample_world "p2"))
             (RankPlan.mk "p0" "2023 Plan" "r1")); [reflexivity|].
    apply (bool_decide_unpack _). vm_compute. exact I.
  - apply (proj2 (proj2 (save_of_absent_id_changes_nothing sample_world "a3"))
             (Assignment.mk "a0" None Assignment.main (Some 0%Z) (Some 0%Z) None None "p1"));
      [reflexivity|].
    apply (bool_decide_unpack _). vm_compute. exact I.
Defined.

Lemma delete_assignment_removes_exactly_witness :
  assignments (state (dispatch (handleDeleteAssignment "a0") sample_world))
  = [sample_assignment; sample_reliever] ∧
  assignments (state (dispatch (handleDeleteAssignment "a1") sample_world))
  = [sample_reliever].
Proof.
  split.
  - apply (delete_assignment_removes_exactly sample_world "a0").
    apply (bool_decide_unpack _). vm_compute. exact I.
  - apply (delete_assignment_removes_exactly sample_world "a1").
Defined.



(** * Further properties *)

(** ** Texts *)
Lemma string_app_cons c s t : String c s +:+ t = String c (s +:+ t).
Proof. reflexivity. Qed.
Lemma string_app_empty t : "" +:+ t = t.
Proof. reflexivity. Qed.

Lemma string_app_assoc (s t u : string) : (s +:+ t) +:+ u = s +:+ t +:+ u.
Proof. induction s as [|c s IH]; [reflexivity|]. rewrite !string_app_cons, IH. reflexivity. Qed.
Lemma string_app_nil_r (s : string) : s +:+ "" = s.
Proof. induction s as [|a s IH]; [reflexivity|]. rewrite string_app_cons, IH. done. Qed.

Lemma string_length_app (s t : string) : String.length (s +:+ t) = (String.length s + String.length t)%nat.
Proof. induction s as [|c s IH]; [reflexivity|]. rewrite string_app_cons. simpl. rewrite IH. reflexivity. Qed.

Lemma parse_string_char c tail :
  parse_string_chars (quote_char c +:+ tail)
  = '(str, after) ← parse_string_chars tail; Some (String c str, after).
Proof. destruct c as [[] [] [] [] [] [] [] []]; reflexivity. Qed.

Lemma parse_quoted s rest :
  parse_string_chars (quote_chars s +:+ String dquote rest) = Some (s, rest).
Proof.
  induction s as [|c s IH]; [reflexivity|].
  simpl. rewrite string_app_assoc, parse_string_char, IH. reflexivity.
Qed.

(** ** The text the encoder writes *)
Lemma text_default o : default "null" (JSON_text <$> o) = JSON_text (default VNull o).
Proof. destruct o; reflexivity. Qed.

Lemma serialize_image v :
  ∀ fuel key, (value_depth v < fuel)%nat →
    SerializeJSONProperty fuel (λ _ x, Ok x) key v = Ok (JSON_text <$> json_image v).
Proof.
  induction v as [ | | b | n | s | t | elems IHv | props IHv ] using value_tree_ind;
    intros [|fuel] key Hfuel; try lia; try reflexivity.
  - destruct n; reflexivity.
  - destruct t; reflexivity.
  - simpl in Hfuel. simpl.
    assert (∀ i, serialize_elements (SerializeJSONProperty fuel (λ _ x, Ok x)) i elems
                 = Ok (map JSON_text (map (λ x, default VNull (json_image x)) elems)))
      as Hparts.
    { assert (foldr (λ x d, max (value_depth x) d) 0%nat elems < fuel)%nat as Hd by lia.
      clear Hfuel. induction IHv as [|x elems Hx _ IHelems]; intros i; [reflexivity|].
      simpl in Hd. simpl. rewrite Hx by lia. simpl.
      rewrite IHelems by lia. simpl. rewrite text_default. reflexivity. }
    rewrite Hparts. reflexivity.
  - simpl in Hfuel. simpl.
    assert (serialize_members (SerializeJSONProperty fuel (λ _ x, Ok x)) props
            = Ok (map (member_text JSON_text)
                    (omap (λ kv, pair kv.1 <$> json_image kv.2) props))) as ->.
    { assert (foldr (λ kv d, max (value_depth kv.2) d) 0%nat props < fuel)%nat as Hd by lia.
      clear Hfuel. induction IHv as [|[k x] props Hx _ IHprops]; [reflexivity|].
      simpl in Hd, Hx. simpl. rewrite Hx by lia. simpl.
      rewrite IHprops by lia. simpl. destruct (json_image x); reflexivity. }
    reflexivity.
Qed.

(** ** Reading a number back *)

Lemma delimited_cases rest :
  delimited rest = true →
  rest = "" ∨ ∃ r, rest = String "," r ∨ rest = String "]" r ∨ rest = String "}" r.
Proof.
  destruct rest as [|c r]; [by left|]. simpl. intros H%bool_decide_eq_true.
  right. exists r. destruct H as [->|[->| ->]]; auto.
Qed.

Lemma digit_of_pretty_char (m : N) :
  (m < 10)%N → digit_of (pretty_N_char m) = Some (Z.of_N m).
Proof.
  intros Hm.
  assert (m = 0 ∨ m = 1 ∨ m = 2 ∨ m = 3 ∨ m = 4 ∨ m = 5 ∨ m = 6 ∨ m = 7 ∨ m = 8 ∨ m = 9)%N
    as Hcases by lia.
  destruct_or!; subst; reflexivity.
Qed.

Lemma parse_digits_delimited n rest :
  delimited rest = true → parse_digits n rest = (n, rest).
Proof.
  intros [->|[r [->|[->| ->]]]]%delimited_cases; reflexivity.
Qed.

Lemma pretty_N_go_app (x : N) (s rest : string) :
  pretty_N_go x s +:+ rest = pretty_N_go x (s +:+ rest).
Proof.
  revert s. induction (N.lt_wf_0 x) as [x _ IH]; intros s.
  destruct (decide (x = 0%N)) as [->|Hx]; [reflexivity|].
  rewrite (pretty_N_go_step x s), (pretty_N_go_step x (s +:+ rest)) by lia.
  rewrite IH; [reflexivity|]. apply N.div_lt; lia.
Qed.

Lemma pretty_N_go_digits (x : N) :
  (0 < x)%N → ∀ s, ∃ c r d,
    pretty_N_go x s = String c r ∧ digit_of c = Some d ∧ d ≠ 0%Z ∧
    parse_digits d r = parse_digits (Z.of_N x) s.
Proof.
  induction (N.lt_wf_0 x) as [x _ IH]; intros Hx s.
  rewrite pretty_N_go_step by done.
  destruct (decide (x < 10)%N) as [Hsmall|Hbig].
  - rewrite N.div_small, N.mod_small by done. rewrite pretty_N_go_0.
    exists (pretty_N_char x), s, (Z.of_N x).
    rewrite digit_of_pretty_char by done. split_and!; [done..|lia|done].
  - destruct (IH (x `div` 10)%N) with (s := String (pretty_N_char (x `mod` 10)) s)
      as (c & r & d & -> & Hc & Hd & Hparse).
    { apply N.div_lt; lia. }
    { apply N.div_str_pos. lia. }
    exists c, r, d. split_and!; [done..|].
    rewrite Hparse. simpl. rewrite digit_of_pretty_char by (apply N.mod_lt; lia).
    f_equal. rewrite (N.div_mod x 10) at 3 by lia. lia.
Qed.


Lemma parse_number_digit c r d :
  digit_of c = Some d → d ≠ 0%Z →
  parse_number (String c r) = let '(n, s2) := parse_digits d r in number_tail false n s2.
Proof.
  destruct c as [[] [] [] [] [] [] [] []]; intros [= <-] Hd; try done.
Qed.

Lemma parse_number_minus c r d :
  digit_of c = Some d → d ≠ 0%Z →
  parse_number (String "-" (String c r))
  = let '(n, s2) := parse_digits d r in number_tail true n s2.
Proof.
  destruct c as [[] [] [] [] [] [] [] []]; intros [= <-] Hd; try done.
Qed.

Lemma number_tail_delimited negative n rest :
  delimited rest = true →
  number_tail negative n rest = Some (if negative then (- n)%Z else n, rest).
Proof.
  intros [->|[r [->|[->| ->]]]]%delimited_cases; reflexivity.
Qed.

Lemma parse_value_digit fuel c r :
  is_Some (digit_of c) ∨ c = "-"%char →
  parse_value (S fuel) (String c r)
  = '(n, rest') ← parse_number (String c r); Some (VNum (Finite n), rest').
Proof.
  destruct c as [[] [] [] [] [] [] [] []]; intros [[d Hd]|Hc]; try done.
Qed.

Lemma parse_number_pretty z rest :
  delimited rest = true →
  ∃ c r, pretty z +:+ rest = String c r ∧ (is_Some (digit_of c) ∨ c = "-"%char) ∧
         parse_number (String c r) = Some (z, rest).
Proof.
  intros Hrest. destruct z as [|p|p].
  - exists "0"%char, rest. split; [reflexivity|]. split; [left; eexists; reflexivity|].
    change (parse_number (String "0" rest)) with (number_tail false 0 rest).
    apply number_tail_delimited, Hrest.
  - destruct (pretty_N_go_digits (Npos p) ltac:(lia) rest) as (c & r & d & Hgo & Hc & Hd & Hparse).
    exists c, r. split.
    { change (pretty (Zpos p)) with (pretty_N_go (Npos p) "").
      rewrite pretty_N_go_app. exact Hgo. }
    split; [left; eauto|].
    rewrite (parse_number_digit _ _ _ Hc Hd), Hparse, parse_digits_delimited by done.
    apply number_tail_delimited, Hrest.
  - destruct (pretty_N_go_digits (Npos p) ltac:(lia) rest) as (c & r & d & Hgo & Hc & Hd & Hparse).
    exists "-"%char, (String c r). split.
    { change (pretty (Zneg p)) with ("-" +:+ pretty_N_go (Npos p) "").
      rewrite string_app_assoc, pretty_N_go_app. change ("" +:+ rest) with rest.
      rewrite Hgo. reflexivity. }
    split; [by right|].
    rewrite (parse_number_minus _ _ _ Hc Hd), Hparse, parse_digits_delimited by done.
    rewrite number_tail_delimited by done. reflexivity.
Qed.

Lemma parse_value_number fuel z rest :
  delimited rest = true →
  parse_value (S fuel) (pretty z +:+ rest) = Some (VNum (Finite z), rest).
Proof.
  intros Hrest. destruct (parse_number_pretty z rest Hrest) as (c & r & -> & Hc & Hparse).
  rewrite parse_value_digit, Hparse by done. reflexivity.
Qed.

(** ** Reading a value back *)
Ltac norm_app := repeat first [rewrite string_app_assoc | rewrite string_app_cons | rewrite string_app_empty].


Lemma value_start_digit c :
  is_Some (digit_of c) ∨ c = "-"%char → value_start c = true.
Proof. destruct c as [[] [] [] [] [] [] [] []]; intros [[d Hd]|Hc]; done. Qed.

Lemma JSON_text_start j :
  plain j = true → ∃ c r, JSON_text j = String c r ∧ value_start c = true.
Proof.
  destruct j as [ | | [] | [] | s | t | elems | props]; try done; intros _;
    try (eexists _, _; split; [reflexivity|reflexivity]).
  destruct (parse_number_pretty z "" eq_refl) as (c & r & Hc & Hstart & _).
  exists c. 
  rewrite string_app_nil_r in Hc. exists r. split; [done|]. by apply value_start_digit.
Qed.

Lemma parse_value_array fuel c r :
  value_start c = true →
  parse_value (S fuel) (String "[" (String c r))
  = '(elems, rest') ← parse_elements fuel (String c r); Some (VArr elems, rest').
Proof. destruct c as [[] [] [] [] [] [] [] []]; intros Hc; try done. Qed.

Lemma parse_value_object fuel r :
  parse_value (S fuel) (String "{" (String dquote r))
  = '(members, rest') ← parse_members fuel (String dquote r);
    Some (object_of_members members, rest').
Proof. reflexivity. Qed.

Lemma parse_value_string fuel s rest :
  parse_value (S fuel) (QuoteJSONString s +:+ rest) = Some (VStr s, rest).
Proof.
  unfold QuoteJSONString. norm_app.
  change (parse_value (S fuel) (String dquote ?x))
    with ('(str, rest') ← parse_string_chars x; Some (VStr str, rest')).
  rewrite parse_quoted. reflexivity.
Qed.

Lemma parse_elements_S fuel s :
  parse_elements (S fuel) s
  = '(v, rest) ← parse_value fuel s;
    match skip_ws rest with
    | String "," rest' => '(vs, rest'') ← parse_elements fuel rest'; Some (v :: vs, rest'')
    | String "]" rest' => Some ([v], rest')
    | _ => None
    end.
Proof. reflexivity. Qed.

Lemma parse_members_S fuel r :
  parse_members (S fuel) (String dquote r)
  = '(k, rest1) ← parse_string_chars r;
    match skip_ws rest1 with
    | String ":" rest2 =>
        '(v, rest3) ← parse_value fuel rest2;
        match skip_ws rest3 with
        | String "," rest4 => '(ms, rest5) ← parse_members fuel rest4; Some ((k, v) :: ms, rest5)
        | String "}" rest4 => Some ([(k, v)], rest4)
        | _ => None
        end
    | _ => None
    end.
Proof. reflexivity. Qed.


Lemma parse_elements_texts (xs : list value) :
  xs ≠ [] → Forall parses xs →
  ∀ fuel rest,
    (2 * String.length (String.concat "," (map JSON_text xs)) + 1 ≤ fuel)%nat →
    parse_elements fuel (String.concat "," (map JSON_text xs) +:+ String "]" rest)
    = Some (xs, rest).
Proof.
  intros Hne Hxs. induction Hxs as [|x xs Hx Hxs IH]; [done|]. clear Hne.
  intros [|fuel] rest Hfuel; [lia|]. rewrite parse_elements_S.
  destruct xs as [|y ys].
  - simpl in Hfuel |- *. rewrite (Hx fuel (String "]" rest) eq_refl) by lia. reflexivity.
  - change (String.concat "," (map JSON_text (x :: y :: ys)))
      with (JSON_text x +:+ "," +:+ String.concat "," (map JSON_text (y :: ys))) in *.
    rewrite !string_length_app in Hfuel. change (String.length ",") with 1%nat in Hfuel.
    norm_app. rewrite (Hx fuel (String "," _) eq_refl) by lia.
    change (parse_elements fuel (String.concat "," (map JSON_text (y :: ys)) +:+ String "]" rest)
            ≫= (λ '(vs, rest''), Some (x :: vs, rest'')) = Some (x :: y :: ys, rest)).
    rewrite IH by (done || lia). reflexivity.
Qed.

Lemma parse_members_texts (props : list (string * value)) :
  props ≠ [] → Forall (λ kv, parses kv.2) props →
  ∀ fuel rest,
    (2 * String.length (String.concat "," (map (member_text JSON_text) props)) + 1 ≤ fuel)%nat →
    parse_members fuel
      (String.concat "," (map (member_text JSON_text) props) +:+ String "}" rest)
    = Some (props, rest).
Proof.
  intros Hne Hprops. induction Hprops as [|[k x] props Hx Hprops IH]; [done|]. clear Hne.
  intros [|fuel] rest Hfuel; [lia|]. simpl in Hx.
  destruct props as [|kv props].
  - change (String.concat "," (map (member_text JSON_text) [(k, x)]))
      with (QuoteJSONString k +:+ ":" +:+ JSON_text x) in *.
    rewrite !string_length_app in Hfuel. unfold QuoteJSONString. norm_app.
    rewrite parse_members_S, parse_quoted.
    change (parse_value fuel (JSON_text x +:+ String "}" rest)
            ≫= (λ '(v, rest3),
                  match skip_ws rest3 with
                  | String "," rest4 =>
                      '(ms, rest5) ← parse_members fuel rest4; Some ((k, v) :: ms, rest5)
                  | String "}" rest4 => Some ([(k, v)], rest4)
                  | _ => None
                  end) = Some ([(k, x)], rest)).
    rewrite (Hx fuel (String "}" rest) eq_refl) by lia. reflexivity.
  - change (String.concat "," (map (member_text JSON_text) ((k, x) :: kv :: props)))
      with ((QuoteJSONString k +:+ ":" +:+ JSON_text x) +:+ "," +:+
            String.concat "," (map (member_text JSON_text) (kv :: props))) in *.
    rewrite !string_length_app in Hfuel. change (String.length ",") with 1%nat in Hfuel.
    unfold QuoteJSONString. norm_app.
    rewrite parse_members_S, parse_quoted.
    match goal with |- context [JSON_text x +:+ String "," ?tail] =>
      change (parse_value fuel (JSON_text x +:+ String "," tail)
              ≫= (λ '(v, rest3),
                    match skip_ws rest3 with
                    | String "," rest4 =>
                        '(ms, rest5) ← parse_members fuel rest4; Some ((k, v) :: ms, rest5)
                    | String "}" rest4 => Some ([(k, v)], rest4)
                    | _ => None
                    end) = Some ((k, x) :: kv :: props, rest));
      rewrite (Hx fuel (String "," tail) eq_refl) by lia
    end.
    change (parse_members fuel
              (String.concat "," (map (member_text JSON_text) (kv :: props)) +:+ String "}" rest)
            ≫= (λ '(ms, rest5), Some ((k, x) :: ms, rest5))
            = Some ((k, x) :: kv :: props, rest)).
    rewrite IH by (done || lia). reflexivity.
Qed.

Lemma set_prop_fresh k v props :
  k ∉ props.*1 → set_prop k v props = props ++ [(k, v)].
Proof.
  induction props as [|[k' v'] props IH]; [reflexivity|].
  rewrite fmap_cons, not_elem_of_cons. intros [Hk Hprops]. simpl.
  rewrite decide_False by (simpl in Hk; congruence). rewrite IH by done. reflexivity.
Qed.

Lemma foldl_set_prop acc members :
  NoDup (acc.*1 ++ members.*1) →
  foldl (λ props kv, set_prop kv.1 kv.2 props) acc members = acc ++ members.
Proof.
  revert acc. induction members as [|[k v] members IH]; intros acc Hnodup.
  - simpl. rewrite app_nil_r. reflexivity.
  - simpl. rewrite set_prop_fresh.
    + rewrite IH, <-app_assoc; [reflexivity|].
      rewrite fmap_app, <-app_assoc. exact Hnodup.
    + rewrite fmap_cons in Hnodup. apply NoDup_app in Hnodup as (_ & Hdisj & _).
      intros Hin. apply (Hdisj k Hin). left.
Qed.

Lemma object_of_distinct members :
  NoDup members.*1 → object_of_members members = VObj members.
Proof. intros Hnodup. unfold object_of_members. rewrite foldl_set_prop; done. Qed.


Lemma starts_value_app s t : starts_value s = true → starts_value (s +:+ t) = starts_value s.
Proof. destruct s; [done|]. reflexivity. Qed.

Lemma parse_value_elements fuel s :
  starts_value s = true →
  parse_value (S fuel) (String "[" s)
  = '(elems, rest') ← parse_elements fuel s; Some (VArr elems, rest').
Proof. destruct s as [|c r]; [done|]. apply parse_value_array. Qed.

Lemma concat_texts_start x xs :
  plain x = true → starts_value (String.concat "," (map JSON_text (x :: xs))) = true.
Proof.
  intros (c & r & Hc & Hstart)%JSON_text_start.
  destruct xs; simpl; rewrite Hc; exact Hstart.
Qed.

Lemma forallb_elem_of {A} (f : A → bool) (l : list A) x :
  forallb f l = true → x ∈ l → f x = true.
Proof. rewrite forallb_forall. intros Hall Hx. apply Hall, list_elem_of_In, Hx. Qed.

Lemma parse_value_text j : plain j = true → distinct_keys j = true → parses j.
Proof.
  induction j as [ | | b | n | s | t | elems IH | props IH ] using value_tree_ind;
    intros Hplain Hkeys fuel rest Hrest Hfuel; try done.
  - destruct fuel; [simpl in Hfuel; lia|reflexivity].
  - destruct fuel; [destruct b; simpl in Hfuel; lia|]. destruct b; reflexivity.
  - destruct n as [| |z|]; try done.
    destruct fuel.
    { destruct (JSON_text_start (VNum (Finite z)) eq_refl) as (c & r & Hc & _).
      rewrite Hc in Hfuel. simpl in Hfuel. lia. }
    apply parse_value_number, Hrest.
  - destruct fuel; [simpl in Hfuel; lia|]. apply parse_value_string.
  - simpl in Hplain, Hkeys.
    assert (Forall parses elems) as Hparses.
    { rewrite Forall_forall in IH |- *. intros x Hx.
      apply IH; [done|..]; eapply forallb_elem_of; eauto. }
    destruct elems as [|x xs].
    { destruct fuel; [simpl in Hfuel; lia|reflexivity]. }
    change (JSON_text (VArr (x :: xs)))
      with ("[" +:+ String.concat "," (map JSON_text (x :: xs)) +:+ "]") in *.
    rewrite !string_length_app in Hfuel.
    change (String.length "[") with 1%nat in Hfuel.
    change (String.length "]") with 1%nat in Hfuel.
    destruct fuel as [|fuel]; [lia|]. norm_app.
    rewrite parse_value_elements.
    2:{ rewrite starts_value_app; apply concat_texts_start;
          simpl in Hplain; by apply andb_prop in Hplain as [? _]. }
    rewrite parse_elements_texts by (done || lia). reflexivity.
  - simpl in Hplain, Hkeys. apply andb_prop in Hkeys as [Hnodup Hkeys].
    apply bool_decide_eq_true in Hnodup.
    assert (Forall (λ kv, parses kv.2) props) as Hparses.
    { rewrite Forall_forall in IH |- *. intros kv Hkv.
      apply IH; [done|..].
      - apply (forallb_elem_of (λ kv, plain kv.2) props); done.
      - apply (forallb_elem_of (λ kv, distinct_keys kv.2) props); done. }
    destruct props as [|[k x] props].
    { destruct fuel; [simpl in Hfuel; lia|reflexivity]. }
    change (JSON_text (VObj ((k, x) :: props)))
      with ("{" +:+ String.concat "," (map (member_text JSON_text) ((k, x) :: props)) +:+ "}") in *.
    rewrite !string_length_app in Hfuel.
    change (String.length "{") with 1%nat in Hfuel.
    change (String.length "}") with 1%nat in Hfuel.
    destruct fuel as [|fuel]; [lia|]. norm_app.
    assert (∃ r, String.concat "," (map (member_text JSON_text) ((k, x) :: props))
                 = String dquote r) as [r Hr].
    { destruct props; eexists; reflexivity. }
    pose proof (parse_members_texts ((k, x) :: props) ltac:(done) Hparses fuel rest
                  ltac:(lia)) as Hmembers.
    rewrite Hr in Hmembers |- *. norm_app. rewrite string_app_cons in Hmembers.
    rewrite parse_value_object, Hmembers.
    simpl. rewrite object_of_distinct by done. reflexivity.
Qed.

Lemma JSON_parse_text j :
  plain j = true → distinct_keys j = true → JSON_parse (JSON_text j) = Ok j.
Proof.
  intros Hplain Hkeys. unfold JSON_parse.
  rewrite <-(string_app_nil_r (JSON_text j)) at 2.
  rewrite (parse_value_text j Hplain Hkeys _ "" eq_refl) by lia. reflexivity.
Qed.

(** ** The codec on values *)

Lemma forallb_map {A B} (f : B → bool) (g : A → B) (l : list A) :
  forallb f (map g l) = forallb (λ x, f (g x)) l.
Proof. induction l as [|x l IH]; [reflexivity|]. simpl. rewrite IH. reflexivity. Qed.

Lemma forallb_ext_in {A} (f g : A → bool) (l : list A) :
  Forall (λ x, f x = g x) l → forallb f l = forallb g l.
Proof. induction 1 as [|x l Hx _ IH]; [reflexivity|]. simpl. rewrite Hx, IH. reflexivity. Qed.

Lemma json_image_plain v : plain v = true → json_image v = Some v.
Proof.
  induction v as [ | | b | n | s | t | elems IH | props IH ] using value_tree_ind;
    intros Hplain; try done.
  - destruct n; done.
  - simpl in Hplain |- *. do 2 f_equal.
    induction IH as [|x elems Hx _ IHelems]; [reflexivity|].
    simpl in Hplain. apply andb_prop in Hplain as [Hp1 Hp2].
    simpl. rewrite (Hx Hp1), (IHelems Hp2). reflexivity.
  - simpl in Hplain |- *. do 2 f_equal.
    induction IH as [|[k x] props Hx _ IHprops]; [reflexivity|].
    simpl in Hplain, Hx. apply andb_prop in Hplain as [Hp1 Hp2].
    cbn. rewrite (Hx Hp1). cbn. f_equal. apply IHprops, Hp2.
Qed.

Lemma json_image_is_plain v j : json_image v = Some j → plain j = true.
Proof.
  revert j.
  induction v as [ | | b | n | s | t | elems IH | props IH ] using value_tree_ind;
    intros j Hj; simpl in Hj; try (injection Hj as <-; reflexivity); try done.
  - destruct n; injection Hj as <-; reflexivity.
  - destruct t; injection Hj as <-; reflexivity.
  - injection Hj as <-. simpl.
    induction IH as [|x elems Hx _ IHelems]; [reflexivity|].
    simpl. rewrite IHelems, andb_true_r.
    destruct (json_image x) as [y|]; [apply Hx; reflexivity|reflexivity].
  - injection Hj as <-. simpl.
    induction IH as [|[k x] props Hx _ IHprops]; [reflexivity|].
    simpl in Hx. cbn. destruct (json_image x) as [y|]; cbn; [|exact IHprops].
    rewrite (Hx y eq_refl). exact IHprops.
Qed.

Lemma omap_keys_sublist (props : list (string * value)) :
  (omap (λ kv, pair kv.1 <$> json_image kv.2) props).*1 `sublist_of` props.*1.
Proof.
  induction props as [|[k x] props IH]; [constructor|].
  cbn. destruct (json_image x); cbn; [by constructor|by apply sublist_cons].
Qed.

Lemma json_image_distinct v j :
  distinct_keys v = true → json_image v = Some j → distinct_keys j = true.
Proof.
  revert j.
  induction v as [ | | b | n | s | t | elems IH | props IH ] using value_tree_ind;
    intros j Hkeys Hj; simpl in Hj; try (injection Hj as <-; reflexivity); try done.
  - destruct n; injection Hj as <-; reflexivity.
  - destruct t; injection Hj as <-; reflexivity.
  - injection Hj as <-. simpl in Hkeys |- *.
    induction IH as [|x elems Hx _ IHelems]; [reflexivity|].
    simpl in Hkeys. apply andb_prop in Hkeys as [Hk1 Hk2].
    simpl. rewrite (IHelems Hk2), andb_true_r.
    destruct (json_image x) as [y|]; [by apply Hx|reflexivity].
  - injection Hj as <-. simpl in Hkeys |- *.
    apply andb_prop in Hkeys as [Hnodup Hkeys]. apply bool_decide_eq_true in Hnodup.
    apply andb_true_intro. split.
    { apply bool_decide_eq_true. eapply sublist_NoDup; [exact Hnodup|].
      apply omap_keys_sublist. }
    clear Hnodup. induction IH as [|[k x] props Hx _ IHprops]; [reflexivity|].
    simpl in Hkeys, Hx. apply andb_prop in Hkeys as [Hk1 Hk2].
    cbn. destruct (json_image x) as [y|]; cbn; [|by apply IHprops].
    rewrite (Hx y Hk1 eq_refl). by apply IHprops.
Qed.

(** The text the encoder writes is the JSON text of the image of the value. *)
Lemma serializeForStorage_text (data : value) :
  serializeForStorage data = Ok (JSON_text <$> json_image data).
Proof.
  unfold serializeForStorage, JSON_stringify. rewrite SerializeJSONProperty_replacer.
  apply serialize_image. lia.
Qed.

(** X2. The encoder never throws, not even on an invalid date (which
    [toJSON] has turned into [null] before the replacer could call
    [toISOString] on it); and it returns a text for every value but
    [undefined]. *)
Theorem serializeForStorage_defined (data : value) :
  ∃ text, serializeForStorage data = Ok text ∧ (text = None ↔ data = VUndefined).
Proof.
  exists (JSON_text <$> json_image data). split; [apply serializeForStorage_text|].
  destruct data as [ | | b | [] | s | [] | elems | props]; simpl; split; done.
Qed.

Lemma parse_serialized (v : value) :
  distinct_keys v = true →
  (text ← serializeForStorage v; JSON_parse (default "undefined" text))
  = from_option Ok (Throw SyntaxError) (json_image v).
Proof.
  intros Hkeys. rewrite serializeForStorage_text.
  destruct (json_image v) as [j|] eqn:Hj; [|reflexivity].
  simpl. apply JSON_parse_text;
    [eapply json_image_is_plain|eapply json_image_distinct]; eauto.
Qed.

(** X3. What [JSON.parse] reads in the text the encoder wrote, for a value
    whose objects have properties of distinct names: the image of the value,
    in which a date is the ISO text of its instant; [undefined] alone has the
    text ["undefined"], on which [JSON.parse] throws. *)
Theorem JSON_parse_serialized (v : value) :
  distinct_keys v = true →
  (text ← serializeForStorage v; JSON_parse (default "undefined" text))
  = match json_image v with Some j => Ok j | None => Throw SyntaxError end.
Proof. intros Hkeys. rewrite parse_serialized by done. destruct (json_image v); done. Qed.

Section codec_on_values.
Context `{!Engine}.

(** X4. The round trip through the codec returns a value that JSON can hold
    (no [undefined], no Date object, no number that is not finite), when the
    properties of its objects have distinct names, none of them [__proto__],
    and none of its objects has the shape of the date tag. *)
Theorem codec_roundtrip_plain (v : value) :
  plain v = true → distinct_keys v = true → already_decoded v = true →
  proto_free v = true →
  codec_roundtrip v = Ok v.
Proof.
  intros Hplain Hkeys Hdecoded Hproto. unfold codec_roundtrip, deserializeFromStorage.
  rewrite serializeForStorage_text, (json_image_plain v Hplain). simpl.
  rewrite (JSON_parse_text v Hplain Hkeys). simpl.
  apply convertDates_plain; done.
Qed.

End codec_on_values.

(** ** What the decoder returns *)

Section decoder.
Context `{!Engine}.

Lemma mapM_entries_cons k x (props : list (string * value)) :
  mapM (λ kv, converted ← convertDates kv.2; Ok (kv.1, converted)) ((k, x) :: props)
  = (converted ← convertDates x;
     rest ← mapM (λ kv, converted ← convertDates kv.2; Ok (kv.1, converted)) props;
     Ok ((k, converted) :: rest)).
Proof.
  change (mapM ?f ((k, x) :: props))
    with (y ← (converted ← convertDates x; Ok (k, converted));
          rest ← mapM f props; Ok (y :: rest)).
  destruct (convertDates x); reflexivity.
Qed.

Lemma tagged_text (v : value) (s : string) : tagged v = VStr s → v = VStr s.
Proof. destruct v as [ | | b | n | s' | [tv|] | elems | props]; done. Qed.

Lemma tagged_lookup (props : list (string * value)) (k : string) :
  lookup_prop k (map (λ kv, (kv.1, tagged kv.2)) props) = tagged <$> lookup_prop k props.
Proof.
  induction props as [|[k0 x] props IH]; [reflexivity|].
  simpl. destruct (decide (k0 = k)); [reflexivity|exact IH].
Qed.

Lemma tagged_no_marker (props : list (string * value)) :
  is_date_marker props = false →
  is_date_marker (map (λ kv, (kv.1, tagged kv.2)) props) = false.
Proof.
  unfold is_date_marker, has_prop. rewrite !tagged_lookup.
  destruct (lookup_prop "__type" props) as [x|]; [|done]. simpl.
  destruct (tagged x) as [ | | | |tag| | | ] eqn:Hx; try done.
  apply tagged_text in Hx as ->. intros Hmarker.
  destruct (lookup_prop "value" props); simpl in *; [|by rewrite andb_false_r].
  exact Hmarker.
Qed.

Lemma tagged_keys (props : list (string * value)) :
  (map (λ kv, (kv.1, tagged kv.2)) props).*1 = props.*1.
Proof. induction props as [|[k x] props IH]; [reflexivity|]. simpl. f_equal. exact IH. Qed.

Lemma tagged_storable (v : value) :
  revivable v = true → plain (tagged v) = true ∧ distinct_keys (tagged v) = true.
Proof.
  induction v as [ | | b | n | s | t | elems IH | props IH ] using value_tree_ind;
    intros Hv; try done.
  - destruct t; done.
  - change (tagged (VArr elems)) with (VArr (map tagged elems)).
    cbn [plain distinct_keys]. cbn [revivable] in Hv. rewrite !forallb_map.
    induction IH as [|x elems Hx _ IHelems]; [done|].
    cbn [forallb] in Hv |- *. apply andb_prop in Hv as [Hv1 Hv2].
    destruct (Hx Hv1) as [-> ->], (IHelems Hv2) as [-> ->]. done.
  - change (tagged (VObj props)) with (VObj (map (λ kv, (kv.1, tagged kv.2)) props)).
    cbn [plain distinct_keys]. cbn [revivable] in Hv.
    apply andb_prop in Hv as [Hv Hprops]. apply andb_prop in Hv as [Hv _].
    apply andb_prop in Hv as [_ Hnodup]. rewrite tagged_keys, Hnodup, !forallb_map.
    cbn [andb fst snd]. clear Hnodup.
    induction IH as [|[k x] props Hx _ IHprops]; [done|].
    cbn [forallb fst snd] in Hprops, Hx |- *. apply andb_prop in Hprops as [Hv1 Hv2].
    destruct (Hx Hv1) as [-> ->], (IHprops Hv2) as [-> ->]. done.
Qed.

Lemma convertDates_tagged (v : value) :
  revivable v = true → convertDates (tagged v) = Ok v.
Proof.
  induction v as [ | | b | n | s | t | elems IH | props IH ] using value_tree_ind;
    intros Hv; try done.
  - destruct t as [tv|]; [|done]. simpl in Hv. apply bool_decide_eq_true in Hv.
    simpl. rewrite Hv. reflexivity.
  - change (tagged (VArr elems)) with (VArr (map tagged elems)).
    rewrite convertDates_array. simpl in Hv.
    enough (mapM convertDates (map tagged elems) = Ok elems) as -> by reflexivity.
    induction IH as [|x elems Hx _ IHelems]; [reflexivity|].
    simpl in Hv. apply andb_prop in Hv as [Hv1 Hv2].
    change (mapM convertDates (map tagged (x :: elems)))
      with (y ← convertDates (tagged x); k ← mapM convertDates (map tagged elems);
            Ok (y :: k)).
    rewrite (Hx Hv1), (IHelems Hv2). reflexivity.
  - change (tagged (VObj props)) with (VObj (map (λ kv, (kv.1, tagged kv.2)) props)).
    simpl in Hv. apply andb_prop in Hv as [Hv Hprops].
    apply andb_prop in Hv as [Hv Hkeys]. apply bool_decide_eq_true in Hkeys.
    apply andb_prop in Hv as [Hmarker _]. apply negb_true_iff in Hmarker.
    rewrite <-(tagged_keys props) in Hkeys.
    rewrite (convertDates_object_ordinary _ (tagged_no_marker _ Hmarker) Hkeys).
    clear Hkeys.
    enough (mapM (λ kv, converted ← convertDates kv.2; Ok (kv.1, converted))
              (map (λ kv, (kv.1, tagged kv.2)) props) = Ok props) as -> by reflexivity.
    clear Hmarker. induction IH as [|[k x] props Hx _ IHprops]; [reflexivity|].
    simpl in Hprops, Hx. apply andb_prop in Hprops as [Hv1 Hv2].
    change (map ?f ((k, x) :: props)) with ((k, tagged x) :: map f props).
    rewrite mapM_entries_cons, (Hx Hv1). simpl. rewrite (IHprops Hv2). reflexivity.
Qed.

(** X6. The decoder reads the tagged form: from the JSON text of a tree in
    which every date is written as a tagged wrapper, it returns the tree
    with its dates as Date objects, provided the engine reads the ISO text of
    each of these dates back as the same instant and no object of the tree
    has a property named [__proto__]. *)
Theorem deserializeFromStorage_tagged (v : value) :
  revivable v = true →
  deserializeFromStorage (JSON_text (tagged v)) = Ok v.
Proof.
  intros Hv. destruct (tagged_storable v Hv) as [Hplain Hkeys].
  unfold deserializeFromStorage. rewrite (JSON_parse_text _ Hplain Hkeys). simpl.
  apply convertDates_tagged, Hv.
Qed.

End decoder.

(** ** The persistence effects *)

Lemma storage_key_inj c c' : storage_key c = storage_key c' → c = c'.
Proof. destruct c, c'; done. Qed.

Lemma serializeForStorage_array (elems : list value) :
  ∃ text, serializeForStorage (VArr elems) = Ok (Some text).
Proof. rewrite serializeForStorage_text. simpl. eauto. Qed.

Lemma persist_state c w : state (persist c w) = state w.
Proof. unfold persist. case_bool_decide; reflexivity. Qed.

Lemma persist_changed c w : changed (persist c w) = changed w.
Proof. unfold persist. case_bool_decide; reflexivity. Qed.

Lemma persist_other c c' w :
  c ≠ c' → localStorage (persist c' w) !! storage_key c = localStorage w !! storage_key c.
Proof.
  intros Hne. unfold persist. case_bool_decide; [|reflexivity]. simpl.
  unfold saveToStorage. destruct (serializeForStorage _); [|reflexivity].
  apply lookup_insert_ne. intros Hkey%storage_key_inj. congruence.
Qed.

Lemma persist_unchanged c w :
  c ∉ changed w → persist c w = w.
Proof. intros Hc. unfold persist. rewrite bool_decide_eq_false_2 by done. reflexivity. Qed.

Lemma persist_changed_lookup c w :
  c ∈ changed w →
  serializeForStorage (snapshot c (state w))
  = Ok (localStorage (persist c w) !! storage_key c).
Proof.
  intros Hc. unfold persist. rewrite bool_decide_eq_true_2 by done. simpl.
  unfold saveToStorage, snapshot.
  destruct c;
    match goal with |- context [serializeForStorage (VArr ?l)] =>
      destruct (serializeForStorage_array l) as [text ->]
    end; simpl; rewrite lookup_insert_eq; reflexivity.
Qed.

(** After a render, the entry of a collection whose setter was called holds
    the text of the collection; the other entries are as they were. *)
Lemma render_lookup c w :
  (c ∈ changed w →
   serializeForStorage (snapshot c (state w))
   = Ok (localStorage (render w) !! storage_key c)) ∧
  (c ∉ changed w →
   localStorage (render w) !! storage_key c = localStorage w !! storage_key c).
Proof.
  unfold render. cbn [localStorage].
  split; intros Hc.
  - destruct c.
    + rewrite !persist_other by done. apply persist_changed_lookup, Hc.
    + rewrite !persist_other by done.
      rewrite <-(persist_state Ranks w). apply persist_changed_lookup.
      by rewrite persist_changed.
    + rewrite !persist_other by done.
      rewrite <-(persist_state Ranks w), <-(persist_state RankPlans (persist Ranks w)).
      apply persist_changed_lookup. by rewrite !persist_changed.
    + rewrite <-(persist_state Ranks w), <-(persist_state RankPlans (persist Ranks w)),
        <-(persist_state Assignments (persist RankPlans (persist Ranks w))).
      apply persist_changed_lookup. by rewrite !persist_changed.
  - destruct c.
    + rewrite !persist_other by done. by rewrite persist_unchanged.
    + rewrite !persist_other by done.
      rewrite persist_unchanged by (by rewrite persist_changed).
      by rewrite persist_other.
    + rewrite !persist_other by done.
      rewrite persist_unchanged by (by rewrite !persist_changed).
      by rewrite !persist_other.
    + rewrite persist_unchanged by (by rewrite !persist_changed).
      by rewrite !persist_other.
Qed.

(** ** Reloading what was stored *)

Lemma stored_text (c : collection) (s : GanttState) (localStorage : Storage) :
  serializeForStorage (snapshot c s) = Ok (localStorage !! storage_key c) →
  ∃ j, json_image (snapshot c s) = Some j ∧
       localStorage !! storage_key c = Some (JSON_text j).
Proof.
  rewrite serializeForStorage_text. intros [= Htext].
  assert (∃ j, json_image (snapshot c s) = Some j) as [j Hj] by (destruct c; eauto).
  exists j. split; [exact Hj|]. by rewrite <-Htext, Hj.
Qed.

Lemma plain_snapshot_of {A} (to_value : A → value) (l : list A) :
  (∀ x, plain (to_value x) = true) → plain (VArr (to_value <$> l)) = true.
Proof.
  intros Hplain. simpl. induction l as [|x l IH]; [reflexivity|].
  simpl. rewrite Hplain. exact IH.
Qed.

Lemma distinct_snapshot_of {A} (to_value : A → value) (l : list A) :
  (∀ x, distinct_keys (to_value x) = true) → distinct_keys (VArr (to_value <$> l)) = true.
Proof.
  intros Hkeys. simpl. induction l as [|x l IH]; [reflexivity|].
  simpl. rewrite Hkeys. exact IH.
Qed.

Lemma decoded_snapshot_of {A} (to_value : A → value) (l : list A) :
  (∀ x, already_decoded (to_value x) = true) →
  already_decoded (VArr (to_value <$> l)) = true.
Proof.
  intros Hdecoded. simpl. induction l as [|x l IH]; [reflexivity|].
  simpl. rewrite Hdecoded. exact IH.
Qed.

Lemma distinct_keys_snapshot c s : distinct_keys (snapshot c s) = true.
Proof.
  destruct c; apply distinct_snapshot_of.
  - intros r. reflexivity.
  - intros p. reflexivity.
  - intros [id [name|] type ps pe [acs|] [ace|] rp]; reflexivity.
  - intros [id date label [className|]]; reflexivity.
Qed.

Lemma decoded_image_snapshot c s j :
  json_image (snapshot c s) = Some j → already_decoded j = true.
Proof.
  destruct c; intros [= <-]; cbn [already_decoded].
  - induction (ranks s) as [|r l IH]; [reflexivity|]. simpl. exact IH.
  - induction (rankPlans s) as [|p l IH]; [reflexivity|]. simpl. exact IH.
  - induction (assignments s) as [|a l IH]; [reflexivity|].
    rewrite fmap_cons. cbn [map forallb]. rewrite IH, andb_true_r.
    destruct a as [id [name|] type [ps|] [pe|] [[acs|]|] [[ace|]|] rp]; reflexivity.
  - induction (markers s) as [|m l IH]; [reflexivity|].
    rewrite fmap_cons. cbn [map forallb]. rewrite IH, andb_true_r.
    destruct m as [id [date|] label [className|]]; reflexivity.
Qed.

Lemma proto_free_image_snapshot c s j :
  json_image (snapshot c s) = Some j → proto_free j = true.
Proof.
  destruct c; intros [= <-]; cbn [proto_free].
  - induction (ranks s) as [|r l IH]; [reflexivity|]. simpl. exact IH.
  - induction (rankPlans s) as [|p l IH]; [reflexivity|]. simpl. exact IH.
  - induction (assignments s) as [|a l IH]; [reflexivity|].
    rewrite fmap_cons. cbn [map forallb]. rewrite IH, andb_true_r.
    destruct a as [id [name|] type [ps|] [pe|] [[acs|]|] [[ace|]|] rp]; reflexivity.
  - induction (markers s) as [|m l IH]; [reflexivity|].
    rewrite fmap_cons. cbn [map forallb]. rewrite IH, andb_true_r.
    destruct m as [id [date|] label [className|]]; reflexivity.
Qed.

Section reload.
Context `{!Engine}.

Lemma deserializeFromStorage_text (j : value) :
  plain j = true → distinct_keys j = true → already_decoded j = true →
  proto_free j = true →
  deserializeFromStorage (JSON_text j) = Ok j.
Proof.
  intros Hplain Hkeys Hdecoded Hproto. unfold deserializeFromStorage.
  rewrite (JSON_parse_text j Hplain Hkeys). simpl.
  apply convertDates_plain; done.
Qed.

(** X8. Ranks and rank plans survive a reload: from a storage whose entry
    holds the text that the encoder gave for the collection, the collection
    starts as it was stored, or, when it was stored empty, from the initial
    values. *)
Theorem ranks_and_rank_plans_reload (c : collection) (s : GanttState)
    (localStorage : Storage) (initial : value) :
  c = Ranks ∨ c = RankPlans →
  serializeForStorage (snapshot c s) = Ok (localStorage !! storage_key c) →
  initial_state c localStorage initial
  = Ok match snapshot c s with VArr [] => initial | stored => stored end.
Proof.
  intros Hc Hstored.
  assert (plain (snapshot c s) = true ∧ already_decoded (snapshot c s) = true)
    as [Hplain Hdecoded].
  { destruct Hc as [-> | ->]; split;
      first [apply plain_snapshot_of | apply decoded_snapshot_of]; intros x; reflexivity. }
  destruct (stored_text c s localStorage Hstored) as (j & Hj & Hkey).
  pose proof (proto_free_image_snapshot _ _ _ Hj) as Hproto.
  rewrite (json_image_plain _ Hplain) in Hj. injection Hj as <-.
  pose proof (deserializeFromStorage_text _ Hplain (distinct_keys_snapshot c s) Hdecoded
                Hproto) as Hdecode.
  destruct Hc as [-> | ->]; cbn [initial_state storage_key] in *;
    unfold initial_ranks, initial_rankPlans;
    rewrite (loadFromStorage_decoded _ _ _ _ _ Hkey Hdecode); cbn [mbind result_bind];
    cbn [snapshot]; rewrite nonempty_array; cbn [mbind result_bind].
  - destruct (ranks s); reflexivity.
  - destruct (rankPlans s); reflexivity.
Qed.

End reload.

Lemma string_app_nonempty (a : string) (c : ascii) (b : string) : a +:+ String c b ≠ "".
Proof. by destruct a. Qed.

Lemma iso_string_nonempty (tv : Z) : iso_string tv ≠ "".
Proof.
  unfold iso_string. destruct (civil_from_days _) as [[y m] d].
  apply (string_app_nonempty _ "-" _).
Qed.

Lemma lookup_prop_absent (k : string) (props : list (string * value)) :
  k ∉ props.*1 → lookup_prop k props = None.
Proof.
  induction props as [|[k' v] props IH]; [reflexivity|].
  rewrite fmap_cons, not_elem_of_cons. intros [Hne Hk]. simpl.
  rewrite decide_False by done. apply IH, Hk.
Qed.

(** Two objects are the same under every name when they are under the names
    of their own properties. *)
Lemma same_fields_keys (props props' : list (string * value)) :
  Forall (λ k, default VUndefined (lookup_prop k props)
               = default VUndefined (lookup_prop k props')) (props.*1 ++ props'.*1) →
  same_fields (VObj props) (VObj props').
Proof.
  intros Hkeys k. cbn [get_prop]. f_equal.
  destruct (decide (k ∈ props.*1 ++ props'.*1)) as [Hk|Hk].
  - rewrite Forall_forall in Hkeys. apply Hkeys, Hk.
  - rewrite elem_of_app in Hk.
    rewrite !lookup_prop_absent by tauto. reflexivity.
Qed.

(** The texts of the valid dates of the goal, each as a text with a first
    character. *)
Ltac iso_strings_nonempty :=
  repeat match goal with
  | |- context [iso_string ?tv] =>
      let Hn := fresh in
      pose proof (iso_string_nonempty tv) as Hn;
      destruct (iso_string tv); [done|]; clear Hn
  end.

(** The stored form of an entity, computed. *)
Ltac stored_form to_value :=
  set (j := default VNull (json_image (to_value _)));
  cbv -[iso_string] in j; subst j; iso_strings_nonempty.

(** [same_fields] of two computed objects, one goal for each name. *)
Ltac same_fields_by_keys :=
  lazymatch goal with
  | |- same_fields ?r ?a =>
      let r' := eval cbv -[Date_parse] in r in
      let a' := eval cbv in a in
      change (same_fields r' a')
  end;
  apply same_fields_keys; cbn [fmap list_fmap fst app];
  repeat apply List.Forall_cons; try apply List.Forall_nil; cbv -[Date_parse].

Section reload_dates.
Context `{!Engine}.

(** What [loadFromStorage] returns for a collection that was stored. *)
Lemma loadFromStorage_stored c s (localStorage : Storage) defaultValue :
  serializeForStorage (snapshot c s) = Ok (localStorage !! storage_key c) →
  ∃ j, json_image (snapshot c s) = Some j ∧
       loadFromStorage localStorage (storage_key c) defaultValue = Ok j.
Proof.
  intros Hstored.
  destruct (stored_text c s localStorage Hstored) as (j & Hj & Hkey).
  exists j. split; [exact Hj|].
  apply (loadFromStorage_decoded _ _ _ _ _ Hkey), deserializeFromStorage_text.
  - exact (json_image_is_plain _ _ Hj).
  - exact (json_image_distinct _ _ (distinct_keys_snapshot c s) Hj).
  - exact (decoded_image_snapshot _ _ _ Hj).
  - exact (proto_free_image_snapshot _ _ _ Hj).
Qed.

Lemma mapM_related {A} (f : value → result value) (image : A → value)
    (R : value → A → Prop) (l : list A) :
  Forall (λ x, ∃ r, f (image x) = Ok r ∧ R r x) l →
  ∃ revived, mapM f (image <$> l) = Ok revived ∧ Forall2 R revived l.
Proof.
  induction 1 as [|x l (r & Hr & Hsame) _ (revived & Hrevived & Hall)].
  - exists []. split; [reflexivity|constructor].
  - exists (r :: revived). split; [|by constructor].
    change (mapM f (image <$> x :: l))
      with (y ← f (image x); k ← mapM f (image <$> l); Ok (y :: k)).
    rewrite Hr, Hrevived. reflexivity.
Qed.

Lemma revive_assignment_stored (a : Assignment.t) :
  reloadable_assignment a →
  ∃ r, revive_assignment (default VNull (json_image (Assignment.to_value a))) = Ok r ∧
       same_fields r (Assignment.to_value a).
Proof.
  destruct a as [id name type ps pe acs ace rp].
  intros (Hs & He & Has & Hae). cbn in Hs, He, Has, Hae.
  destruct Hs as (ts & -> & Hts). destruct He as (te & -> & Hte).
  assert (acs = None ∨ ∃ ta, acs = Some (Some ta) ∧ Date_parse (iso_string ta) = Some ta)
    as Hacs.
  { destruct acs as [d|]; [right|by left].
    destruct (Has d eq_refl) as (ta & -> & Hta). eauto. }
  assert (ace = None ∨ ∃ ta, ace = Some (Some ta) ∧ Date_parse (iso_string ta) = Some ta)
    as Hace.
  { destruct ace as [d|]; [right|by left].
    destruct (Hae d eq_refl) as (ta & -> & Hta). eauto. }
  clear Has Hae.
  destruct Hacs as [-> | (tas & -> & Htas)]; destruct Hace as [-> | (tae & -> & Htae)];
    destruct name as [name|];
    stored_form Assignment.to_value;
    (eexists; split; [reflexivity|]);
    same_fields_by_keys; rewrite ?Hts, ?Hte, ?Htas, ?Htae; reflexivity.
Qed.

End reload_dates.

Section reload_collections.
Context `{!Engine}.

Lemma revive_marker_stored (m : Marker.t) :
  reloadable_marker m →
  ∃ r, revive_marker (default VNull (json_image (Marker.to_value m))) = Ok r ∧
       same_fields r (Marker.to_value m).
Proof.
  destruct m as [id date label className].
  intros (tv & Hdate & Htv). cbn in Hdate. subst date.
  destruct className as [className|];
    stored_form Marker.to_value;
    (eexists; split; [reflexivity|]);
    same_fields_by_keys; rewrite ?Htv; reflexivity.
Qed.

Lemma nonempty_fmap {A} (to_value : A → value) (l : list A) :
  l ≠ [] → nonempty (VArr (map (λ x, default VNull (json_image x)) (to_value <$> l))) = Ok true.
Proof.
  intros Hl. rewrite nonempty_array. f_equal. apply bool_decide_eq_true.
  destruct l; [done|]. simpl. lia.
Qed.

Lemma array_map_image {A} (f : value → result value) (to_value : A → value)
    (l : list A) (revived : list value) :
  mapM f ((λ x, default VNull (json_image (to_value x))) <$> l) = Ok revived →
  array_map f (VArr (map (λ x, default VNull (json_image x)) (to_value <$> l)))
  = Ok (VArr revived).
Proof.
  intros Hrevived. unfold array_map.
  replace (map (λ x, default VNull (json_image x)) (to_value <$> l))
    with ((λ x, default VNull (json_image (to_value x))) <$> l).
  - rewrite Hrevived. reflexivity.
  - clear Hrevived. induction l as [|x l IH]; [reflexivity|]. simpl. f_equal. exact IH.
Qed.

(** X9. Assignments survive a reload when their dates do: from a storage
    whose entry holds the text that the encoder gave for a non-empty list of
    assignments, each with valid plan dates and with actual dates that are
    valid where present, all of which the engine reads back from their ISO
    text, the collection starts as a list of as many objects, in the same
    order, each with the same value as the assignment under every property
    name, dates included. *)
Theorem assignments_reload (s : GanttState) (localStorage : Storage) (initial : value) :
  assignments s ≠ [] →
  Forall reloadable_assignment (assignments s) →
  serializeForStorage (snapshot Assignments s)
  = Ok (localStorage !! storage_key Assignments) →
  ∃ revived,
    initial_state Assignments localStorage initial = Ok (VArr revived) ∧
    Forall2 same_fields revived (Assignment.to_value <$> assignments s).
Proof.
  intros Hfilled Hdates Hstored.
  destruct (loadFromStorage_stored Assignments s localStorage initial Hstored)
    as (j & [= <-] & Hload).
  destruct (mapM_related revive_assignment
              (λ a, default VNull (json_image (Assignment.to_value a)))
              (λ r a, same_fields r (Assignment.to_value a)) (assignments s))
    as (revived & Hrevived & Hsame).
  { eapply Forall_impl; [exact Hdates|]. apply revive_assignment_stored. }
  exists revived. split; [|by apply Forall2_fmap_r].
  cbn [initial_state]. unfold initial_assignments.
  change "gantt-assignments" with (storage_key Assignments).
  rewrite Hload. cbn [mbind result_bind].
  rewrite nonempty_fmap by done. cbn [mbind result_bind].
  apply array_map_image, Hrevived.
Qed.

(** X10. Markers survive a reload when their dates do: the same for the
    markers, each with a valid date that the engine reads back from its ISO
    text. *)
Theorem markers_reload (s : GanttState) (localStorage : Storage) (initial : value) :
  markers s ≠ [] →
  Forall reloadable_marker (markers s) →
  serializeForStorage (snapshot Markers s) = Ok (localStorage !! storage_key Markers) →
  ∃ revived,
    initial_state Markers localStorage initial = Ok (VArr revived) ∧
    Forall2 same_fields revived (Marker.to_value <$> markers s).
Proof.
  intros Hfilled Hdates Hstored.
  destruct (loadFromStorage_stored Markers s localStorage initial Hstored)
    as (j & [= <-] & Hload).
  destruct (mapM_related revive_marker
              (λ m, default VNull (json_image (Marker.to_value m)))
              (λ r m, same_fields r (Marker.to_value m)) (markers s))
    as (revived & Hrevived & Hsame).
  { eapply Forall_impl; [exact Hdates|]. apply revive_marker_stored. }
  exists revived. split; [|by apply Forall2_fmap_r].
  cbn [initial_state]. unfold initial_markers.
  change "gantt-markers" with (storage_key Markers).
  rewrite Hload. cbn [mbind result_bind].
  rewrite nonempty_fmap by done. cbn [mbind result_bind].
  apply array_map_image, Hrevived.
Qed.

Lemma revive_assignment_invalid (a : Assignment.t) :
  ∃ r, revive_assignment (default VNull (json_image (Assignment.to_value a))) = Ok r ∧
       epoch_for_invalid r a.
Proof.
  destruct a as [id [name|] type [ps|] [pe|] [[acs|]|] [[ace|]|] rp];
    stored_form Assignment.to_value;
    (eexists; split; [reflexivity|]);
    repeat split; intros Hinvalid; try discriminate Hinvalid; reflexivity.
Qed.

(** X11. An invalid date does not survive a reload: from a storage whose
    entry holds the text that the encoder gave for a non-empty list of
    assignments, the collection starts, without an exception, as a list of
    as many objects in which an invalid plan date has become the date of
    time value 0 (1 January 1970), and an invalid actual date has become
    [undefined]. *)
Theorem invalid_dates_reload (s : GanttState) (localStorage : Storage) (initial : value) :
  assignments s ≠ [] →
  serializeForStorage (snapshot Assignments s)
  = Ok (localStorage !! storage_key Assignments) →
  ∃ revived,
    initial_state Assignments localStorage initial = Ok (VArr revived) ∧
    Forall2 epoch_for_invalid revived (assignments s).
Proof.
  intros Hfilled Hstored.
  destruct (loadFromStorage_stored Assignments s localStorage initial Hstored)
    as (j & [= <-] & Hload).
  destruct (mapM_related revive_assignment
              (λ a, default VNull (json_image (Assignment.to_value a)))
              epoch_for_invalid (assignments s)) as (revived & Hrevived & Hsame).
  { apply Forall_forall. intros a _. apply revive_assignment_invalid. }
  exists revived. split; [|exact Hsame].
  cbn [initial_state]. unfold initial_assignments.
  change "gantt-assignments" with (storage_key Assignments).
  rewrite Hload. cbn [mbind result_bind].
  rewrite nonempty_fmap by done. cbn [mbind result_bind].
  apply array_map_image, Hrevived.
Qed.

(** X12. After Clear Storage, a reload starts from the initial values: the
    storage that the clearing and the render after it leave gives, for each
    of the four collections and whatever the initial values are, the initial
    values. *)
Theorem clear_then_reload (w : World) (c : collection) (initial : value) :
  initial_state c (localStorage (dispatch (handleClearStorage true) w)) initial
  = Ok initial.
Proof.
  set (w' := dispatch (handleClearStorage true) w).
  assert (snapshot c (state w') = VArr []) as Hempty.
  { unfold w', dispatch. rewrite render_state. by destruct c. }
  assert (serializeForStorage (snapshot c (state w'))
          = Ok (localStorage w' !! storage_key c)) as Hstored.
  { unfold w', dispatch. rewrite render_state. apply render_lookup.
    destruct c; cbn; set_solver. }
  destruct (loadFromStorage_stored c (state w') (localStorage w') initial Hstored)
    as (j & Hj & Hload).
  rewrite Hempty in Hj. injection Hj as <-.
  destruct c; cbn [initial_state storage_key] in *;
    unfold initial_ranks, initial_rankPlans, initial_assignments, initial_markers;
    rewrite Hload; reflexivity.
Qed.

End reload_collections.

(** ** The collections under the events *)

Lemma NoDup_fmap_filter {A} (f : A → string) (P : A → Prop) `{!∀ x, Decision (P x)}
    (l : list A) :
  NoDup (f <$> l) → NoDup (f <$> filter P l).
Proof.
  intros Hl. eapply sublist_NoDup; [exact Hl|].
  apply fmap_sublist, sublist_filter.
Qed.

Lemma NoDup_fmap_snoc {A} (f : A → string) (l : list A) (x : A) :
  NoDup (f <$> l) → f x ∉ f <$> l → NoDup (f <$> l ++ [x]).
Proof.
  intros Hl Hx. rewrite fmap_app. apply NoDup_app. split_and!; [exact Hl| |].
  - intros k Hk [->|[]%elem_of_nil]%elem_of_cons. exact (Hx Hk).
  - apply NoDup_singleton.
Qed.

Lemma fmap_keeps {A} (f : A → string) (g : A → A) (l : list A) :
  (∀ x, f (g x) = f x) → f <$> (g <$> l) = f <$> l.
Proof.
  intros Hg. rewrite <-list_fmap_compose. apply list_fmap_ext. intros i x _. apply Hg.
Qed.

Lemma dispatch_state h w : state (dispatch h w) = state (h w).
Proof. apply render_state. Qed.

Ltac ids_kept :=
  rewrite fmap_keeps; [assumption|]; intros x; cbv beta; case_decide; reflexivity.

(** X13. Ids stay unique: when no two entities of a collection share an id,
    and the id drawn for the call is not yet taken in the collection, the
    same holds after the event, whatever the event. *)
Theorem ids_stay_unique (e : event) (w : World) :
  unique_ids (state w) → fresh e (state w) →
  unique_ids (state (dispatch (handle e) w)).
Proof.
  intros (Hranks & HrankPlans & Hassignments & Hmarkers) Hfresh.
  rewrite dispatch_state.
  destruct e as [id|id date|id startAt [endAt|]| |id data|rankId|id data|rankPlanId
                 |id data|a|id|[]|[]|[]|[]];
    cbn [handle fresh] in *;
    unfold handleSaveRank, handleSaveRankPlan, handleSaveAssignment;
    try destruct (editingRank (state w));
    try destruct (editingRankPlan (state w));
    try destruct (editingAssignment (state w));
    (split_and!; cbn; try assumption).
  all: try (apply NoDup_nil_2).
  all: try (apply NoDup_fmap_filter; assumption).
  all: try (apply NoDup_fmap_snoc; assumption).
  all: try ids_kept.
Qed.

Lemma reachable_never_edits (w : World) :
  reachable w → editingRank (state w) = None ∧ editingRankPlan (state w) = None.
Proof.
  induction 1 as [rs ps asg ms ls|e w _ [Hrank HrankPlan]].
  - unfold mounted. rewrite render_state. split; reflexivity.
  - rewrite dispatch_state.
    destruct e as [id|id date|id startAt [endAt|]| |id data|rankId|id data|rankPlanId
                   |id data|a|id|[]|[]|[]|[]];
      cbn [handle];
      unfold handleSaveRank, handleSaveRankPlan, handleSaveAssignment;
      try destruct (editingAssignment (state w));
      rewrite ?Hrank, ?HrankPlan; split; first [reflexivity | assumption].
Qed.

(** X14. A rank or a rank plan is never edited: however the component was
    mounted and whatever the events since, no rank and no rank plan is under
    edit, so that saving the rank dialog always adds a rank at the end, with
    the new id, and saving the rank-plan dialog always adds a rank plan at
    the end; the ranks and rank plans that were there stay as they are. *)
Theorem rank_saves_only_append (w : World) (id : string) :
  reachable w →
  (∀ rankData,
     ranks (state (dispatch (handleSaveRank id rankData) w))
     = ranks (state w) ++ [Rank.mk id (RankData.name rankData)]) ∧
  (∀ rankPlanData,
     rankPlans (state (dispatch (handleSaveRankPlan id rankPlanData) w))
     = rankPlans (state w)
       ++ [RankPlan.mk id (RankPlanData.name rankPlanData)
             (RankPlanData.rankId rankPlanData)]).
Proof.
  intros [Hrank HrankPlan]%reachable_never_edits.
  split; intros data; rewrite dispatch_state;
    unfold handleSaveRank, handleSaveRankPlan; rewrite ?Hrank, ?HrankPlan; reflexivity.
Qed.

Lemma filter_snoc_fresh {A} (f : A → string) (l : list A) (x : A) :
  f x ∉ f <$> l → filter (λ y, f y ≠ f x) (l ++ [x]) = l.
Proof.
  intros Hx. rewrite filter_app, filter_cons_False, filter_nil, app_nil_r by (by intros []).
  induction l as [|y l IH]; [reflexivity|].
  rewrite fmap_cons, not_elem_of_cons in Hx. destruct Hx as [Hne Hx].
  rewrite filter_cons_True by done. f_equal. apply IH, Hx.
Qed.

(** X15. Deleting what was just created restores the collection: an
    assignment saved from the dialog in create mode under an id that was not
    taken, then deleted, leaves the assignments as they were; so does a
    marker created and then removed. *)
Theorem create_then_delete (w : World) (id : string) :
  (∀ assignmentData,
     editingAssignment (state w) = None →
     id ∉ Assignment.id <$> assignments (state w) →
     assignments (state (dispatch (handleDeleteAssignment id)
                           (dispatch (handleSaveAssignment id assignmentData) w)))
     = assignments (state w)) ∧
  (∀ date,
     id ∉ Marker.id <$> markers (state w) →
     markers (state (dispatch (handleRemoveMarker id)
                       (dispatch (handleCreateMarker id date) w)))
     = markers (state w)).
Proof.
  split.
  - intros data Hcreate Hfresh.
    transitivity (filter (λ a, Assignment.id a ≠ id)
                    (assignments (state (dispatch (handleSaveAssignment id data) w))));
      [rewrite dispatch_state; reflexivity|].
    rewrite dispatch_state. unfold handleSaveAssignment. rewrite Hcreate.
    apply (filter_snoc_fresh Assignment.id _ (with_id id data)), Hfresh.
  - intros date Hfresh.
    transitivity (filter (λ m, Marker.id m ≠ id)
                    (markers (state (dispatch (handleCreateMarker id date) w))));
      [rewrite dispatch_state; reflexivity|].
    rewrite dispatch_state.
    apply (filter_snoc_fresh Marker.id _ (Marker.mk id date _ _)), Hfresh.
Qed.

Lemma assignments_moved (id : string) (startAt endAt : time) (w : World) :
  assignments (state (dispatch (handleMoveAssignment id startAt (Some endAt)) w))
  = (λ a, if decide (Assignment.id a = id) then moved startAt endAt a else a)
      <$> assignments (state w).
Proof. rewrite dispatch_state. reflexivity. Qed.

(** X16. Dropping a bar where it lies changes nothing: when no two
    assignments share an id, moving an assignment of the store to the dates
    of its own feature leaves the assignments as they were. *)
Theorem move_to_own_dates (w : World) (a : Assignment.t) :
  NoDup (Assignment.id <$> assignments (state w)) →
  a ∈ assignments (state w) →
  let feature := assignmentToFeature a in
  assignments (state (dispatch (handleMoveAssignment (GanttFeature.id feature)
                                  (GanttFeature.startAt feature)
                                  (Some (GanttFeature.endAt feature))) w))
  = assignments (state w).
Proof.
  intros Hids Ha feature. rewrite assignments_moved.
  rewrite <-(list_fmap_id (assignments (state w))) at 2.
  apply list_fmap_ext. intros i x Hx. cbn.
  case_decide as Hid; [|reflexivity].
  assert (x = a) as ->; [|by destruct a].
  apply list_elem_of_lookup in Ha as [j Hj].
  assert (i = j) as ->; [|congruence].
  apply (NoDup_lookup _ _ _ (Assignment.id a) Hids); rewrite list_lookup_fmap.
  - rewrite Hx. cbn. f_equal. exact Hid.
  - rewrite Hj. reflexivity.
Qed.

(** ** The rows of the chart *)

(** The elements of [groups[key] || []], when it is an array, are the
    elements of the list with that key. *)
Lemma group_or_empty_elements {A} (key : A → string) (l : list A) (k : string)
    (elements : list A) :
  group_or_empty (groupBy key l) k = Elements elements →
  elements = filter (λ x, key x = k) l.
Proof.
  unfold group_or_empty. rewrite groupBy_lookup.
  destruct (filter _ l) as [|x g].
  - destruct (Object_prototype k); [done|]. by intros [= <-].
  - by intros [= <-].
Qed.

Lemma group_or_empty_ordinary {A} (key : A → string) (l : list A) (k : string) :
  Object_prototype k = None →
  group_or_empty (groupBy key l) k = Elements (filter (λ x, key x = k) l).
Proof.
  intros Hk. unfold group_or_empty. rewrite groupBy_lookup, Hk.
  destruct (filter _ l); reflexivity.
Qed.

Lemma filter_fmap_keeps {A} (key : A → string) (g : A → A) (k : string) (l : list A) :
  (∀ x, key (g x) = key x) →
  filter (λ x, key x = k) (g <$> l) = g <$> filter (λ x, key x = k) l.
Proof.
  intros Hg. induction l as [|x l IH]; [reflexivity|].
  rewrite fmap_cons, !filter_cons, Hg, IH. case_decide; reflexivity.
Qed.

Lemma same_id_same_entity {A} (f : A → string) (l : list A) (x y : A) :
  NoDup (f <$> l) → x ∈ l → y ∈ l → f x = f y → x = y.
Proof.
  intros Hl [i Hi]%list_elem_of_lookup [j Hj]%list_elem_of_lookup Hxy.
  assert (i = j) as ->; [|congruence].
  apply (NoDup_lookup _ _ _ (f x) Hl); rewrite list_lookup_fmap.
  - rewrite Hi. reflexivity.
  - rewrite Hj, Hxy. reflexivity.
Qed.

(** X17. A move keeps every assignment in its row: after an assignment was
    moved, what the row of each rank plan reads under the id of the plan is
    what it read before, with the same assignments in the same order, the
    moved one with its new plan dates and all else as it was. *)
Theorem move_keeps_rows (w : World) (id : string) (startAt endAt : time)
    (rankPlan : RankPlan.t) :
  planAssignments (state (dispatch (handleMoveAssignment id startAt (Some endAt)) w))
    rankPlan
  = looked_up_map
      (λ a, if decide (Assignment.id a = id) then moved startAt endAt a else a)
      (planAssignments (state w) rankPlan).
Proof.
  unfold planAssignments, group_or_empty, assignmentsByRankPlan.
  rewrite !groupBy_lookup, assignments_moved.
  rewrite (filter_fmap_keeps Assignment.rankPlanId)
    by (intros a; case_decide; reflexivity).
  destruct (filter _ (assignments (state w))) as [|a own]; [|reflexivity].
  cbn [fmap list_fmap]. destruct (Object_prototype _); reflexivity.
Qed.

Lemma assignments_saved (editing : Assignment.t) (id : string)
    (assignmentData : AssignmentData.t) (w : World) :
  editingAssignment (state w) = Some editing →
  assignments (state (dispatch (handleSaveAssignment id assignmentData) w))
  = (λ a, if decide (Assignment.id a = Assignment.id editing)
          then with_id (Assignment.id a) assignmentData else a)
      <$> assignments (state w).
Proof.
  intros Hediting. rewrite dispatch_state. unfold handleSaveAssignment.
  rewrite Hediting. reflexivity.
Qed.

(** X18. Editing then saving replaces one assignment in place: when no two
    assignments share an id, opening the dialog on the assignment at
    position [i] and saving it makes the assignments the ones of before with,
    at position [i], the fields of the dialog under the id of the edited
    assignment; the id drawn for the call is not used. *)
Theorem edit_then_save (w : World) (a : Assignment.t) (i : nat) (id : string)
    (assignmentData : AssignmentData.t) :
  NoDup (Assignment.id <$> assignments (state w)) →
  assignments (state w) !! i = Some a →
  assignments (state (dispatch (handleSaveAssignment id assignmentData)
                        (dispatch (handleEditAssignment a) w)))
  = <[i := with_id (Assignment.id a) assignmentData]> (assignments (state w)).
Proof.
  intros Hids Hi.
  rewrite (assignments_saved a) by (rewrite dispatch_state; reflexivity).
  rewrite dispatch_state.
  change (assignments (state (handleEditAssignment a w))) with (assignments (state w)).
  apply list_eq. intros j. rewrite list_lookup_fmap.
  destruct (decide (i = j)) as [<-|Hne].
  - rewrite list_lookup_insert_eq by (eapply lookup_lt_Some, Hi).
    rewrite Hi. cbn. rewrite decide_True by done. reflexivity.
  - rewrite list_lookup_insert_ne by done.
    destruct (assignments (state w) !! j) as [x|] eqn:Hj; [|reflexivity].
    cbn. rewrite decide_False; [reflexivity|]. intros Hid. apply Hne.
    apply (NoDup_lookup _ _ _ (Assignment.id a) Hids); rewrite list_lookup_fmap.
    + rewrite Hi. reflexivity.
    + rewrite Hj. cbn. f_equal. exact Hid.
Qed.

(** [mapM] in the exception monad: all the calls return, or the first that
    throws ends it. *)
Lemma mapM_Ok {A B} (f : A → result B) (l : list A) (ys : list B) :
  mapM f l = Ok ys ↔ Forall2 (λ x y, f x = Ok y) l ys.
Proof.
  revert ys. induction l as [|x l IH]; intros ys.
  - split; [intros [= <-]; constructor|by inversion 1].
  - change (mapM f (x :: l)) with (y ← f x; k ← mapM f l; Ok (y :: k)). split.
    + destruct (f x) as [y|] eqn:Hx; [|done]. simpl.
      destruct (mapM f l) as [k|]; [|done]. intros [= <-].
      constructor; [exact Hx|]. by apply IH.
    + inversion 1 as [|? y ? k Hx Hk]; subst. rewrite Hx. simpl.
      apply IH in Hk as ->. reflexivity.
Qed.

Lemma mapM_Throw {A B} (f : A → result B) (l : list A) (e : error) :
  mapM f l = Throw e → ∃ x, x ∈ l ∧ f x = Throw e.
Proof.
  induction l as [|x l IH]; [done|].
  change (mapM f (x :: l)) with (y ← f x; k ← mapM f l; Ok (y :: k)).
  destruct (f x) as [y|e'] eqn:Hx; simpl.
  - destruct (mapM f l) as [k|e']; [done|]. intros [= ->].
    destruct (IH eq_refl) as (x' & Hin & Hx'). exists x'. split; [by right|exact Hx'].
  - intros [= ->]. exists x. split; [by left|exact Hx].
Qed.

Lemma mapM_returns {A B} (f : A → result B) (l : list A) :
  (∀ x, x ∈ l → ∃ y, f x = Ok y) → ∃ ys, mapM f l = Ok ys.
Proof.
  intros Hf. destruct (mapM f l) as [ys|e] eqn:Hl; [eauto|].
  apply mapM_Throw in Hl as (x & Hx & Hthrow).
  destruct (Hf x Hx) as [y Hy]. congruence.
Qed.

Lemma Forall2_elem_of_l {A B} (R : A → B → Prop) (l : list A) (k : list B) (x : A) :
  Forall2 R l k → x ∈ l → ∃ y, y ∈ k ∧ R x y.
Proof.
  induction 1 as [|x' y l k Hxy _ IH]; [by intros ?%elem_of_nil|].
  intros [->|Hx]%elem_of_cons.
  - exists y. split; [by left|exact Hxy].
  - destruct (IH Hx) as (y' & Hy' & HR). exists y'. split; [by right|exact HR].
Qed.

Lemma Forall2_elem_of_r {A B} (R : A → B → Prop) (l : list A) (k : list B) (y : B) :
  Forall2 R l k → y ∈ k → ∃ x, x ∈ l ∧ R x y.
Proof.
  induction 1 as [|x y' l k Hxy _ IH]; [by intros ?%elem_of_nil|].
  intros [->|Hy]%elem_of_cons.
  - exists x. split; [by left|exact Hxy].
  - destruct (IH Hy) as (x' & Hx' & HR). exists x'. split; [by right|exact HR].
Qed.

Lemma elem_of_concat {A} (x : A) (ls : list (list A)) :
  x ∈ concat ls ↔ ∃ l, x ∈ l ∧ l ∈ ls.
Proof.
  induction ls as [|l ls IH]; simpl.
  - split; [by intros ?%elem_of_nil|]. by intros (l & _ & ?%elem_of_nil).
  - rewrite elem_of_app, IH. split.
    + intros [Hx|(l' & Hx & Hl')]; [exists l; split; [exact Hx|by left]|].
      exists l'. split; [exact Hx|by right].
    + intros (l' & Hx & [->|Hl']%elem_of_cons); [by left|]. right. eauto.
Qed.

(** A row of the timeline: its rank plan belongs to one of the ranks, and
    its features are those of the assignments of the plan. *)
Lemma timeline_row_Ok (s : GanttState) (rankPlan : RankPlan.t)
    (row : RankPlan.t * list GanttFeature.t) :
  timeline_row s rankPlan = Ok row ↔
  ∃ own, planAssignments s rankPlan = Elements own ∧
         row = (rankPlan, assignmentToFeature <$> own).
Proof.
  unfold timeline_row. destruct (planAssignments s rankPlan) as [own|m]; simpl.
  - split; [intros [= <-]; eauto|]. by intros (own' & [= <-] & ->).
  - split; [done|]. by intros (own' & ? & _).
Qed.

Lemma timeline_rows (s : GanttState) (rows : list (RankPlan.t * list GanttFeature.t))
    (row : RankPlan.t * list GanttFeature.t) :
  timeline s = Ok rows →
  row ∈ rows ↔
  ∃ rank, rank ∈ ranks s ∧ row.1 ∈ rankPlans s ∧
          RankPlan.rankId row.1 = Rank.id rank ∧ timeline_row s row.1 = Ok row.
Proof.
  unfold timeline.
  destruct (mapM _ (ranks s)) as [groups|] eqn:Hgroups; [|done]. intros [= <-].
  apply mapM_Ok in Hgroups. rewrite elem_of_concat. split.
  - intros (group & Hrow & Hgroup).
    destruct (Forall2_elem_of_r _ _ _ _ Hgroups Hgroup) as (rank & Hrank & Hplans).
    unfold mapM_elements in Hplans.
    destruct (rankPlanList s rank) as [plans|] eqn:Hlist; [|done].
    apply mapM_Ok in Hplans.
    destruct (Forall2_elem_of_r _ _ _ _ Hplans Hrow) as (rankPlan & HrankPlan & Hmade).
    assert (row.1 = rankPlan) as Hfirst.
    { apply timeline_row_Ok in Hmade as (own & _ & ->). reflexivity. }
    rewrite Hfirst.
    apply group_or_empty_elements in Hlist. rewrite Hlist in HrankPlan.
    apply list_elem_of_filter in HrankPlan as [Hof HrankPlan].
    exists rank. done.
  - intros (rank & Hrank & HrankPlan & Hof & Hmade).
    destruct (Forall2_elem_of_l _ _ _ _ Hgroups Hrank) as (group & Hgroup & Hplans).
    exists group. split; [|exact Hgroup].
    unfold mapM_elements in Hplans.
    destruct (rankPlanList s rank) as [plans|] eqn:Hlist; [|done].
    apply mapM_Ok in Hplans.
    apply group_or_empty_elements in Hlist.
    assert (row.1 ∈ plans) as Hin.
    { rewrite Hlist. apply list_elem_of_filter. done. }
    destruct (Forall2_elem_of_l _ _ _ _ Hplans Hin) as (row' & Hrow' & Hmade').
    congruence.
Qed.

Lemma timeline_returns (s : GanttState) :
  ordinary_ids s → ∃ rows, timeline s = Ok rows.
Proof.
  intros [Hranks HrankPlans]. unfold timeline.
  destruct (mapM_returns
              (λ rank, mapM_elements (timeline_row s) (rankPlanList s rank)) (ranks s))
    as [groups ->]; [|simpl; eauto].
  intros rank Hrank. rewrite Forall_forall in Hranks.
  unfold rankPlanList, rankPlansByRank.
  rewrite (group_or_empty_ordinary _ _ _ (Hranks rank Hrank)).
  apply mapM_returns. intros rankPlan [_ HrankPlan]%list_elem_of_filter.
  rewrite Forall_forall in HrankPlans.
  unfold timeline_row, planAssignments, assignmentsByRankPlan.
  rewrite (group_or_empty_ordinary _ _ _ (HrankPlans rankPlan HrankPlan)).
  simpl. eauto.
Qed.

(** When the timeline throws, it is a TypeError, and a rank without rank
    plan, or a rank plan without assignment, has the name of a member of
    [Object.prototype] for its id. *)
Lemma timeline_throws (s : GanttState) (e : error) :
  timeline s = Throw e →
  e = TypeError ∧
  ((∃ rank, rank ∈ ranks s ∧ is_Some (Object_prototype (Rank.id rank)) ∧
            filter (λ p, RankPlan.rankId p = Rank.id rank) (rankPlans s) = []) ∨
   (∃ rankPlan, rankPlan ∈ rankPlans s ∧
                is_Some (Object_prototype (RankPlan.id rankPlan)) ∧
                filter (λ a, Assignment.rankPlanId a = RankPlan.id rankPlan)
                  (assignments s) = [])).
Proof.
  unfold timeline.
  destruct (mapM _ (ranks s)) as [groups|e'] eqn:Hgroups; [done|]. intros [= ->].
  apply mapM_Throw in Hgroups as (rank & Hrank & Hthrow).
  unfold mapM_elements, rankPlanList, rankPlansByRank, group_or_empty in Hthrow.
  rewrite groupBy_lookup in Hthrow.
  destruct (filter _ (rankPlans s)) as [|p plans] eqn:Hplans.
  - destruct (Object_prototype (Rank.id rank)) as [m|] eqn:Hm; [|done].
    injection Hthrow as <-. split; [reflexivity|]. left. exists rank. eauto.
  - apply mapM_Throw in Hthrow as (rankPlan & HrankPlan & Hthrow).
    rewrite <-Hplans in HrankPlan.
    apply list_elem_of_filter in HrankPlan as [_ HrankPlan].
    unfold timeline_row, planAssignments, assignmentsByRankPlan, group_or_empty in Hthrow.
    rewrite groupBy_lookup in Hthrow.
    destruct (filter _ (assignments s)) as [|a own] eqn:Hown; [|done].
    destruct (Object_prototype (RankPlan.id rankPlan)) as [m|] eqn:Hm; [|done].
    injection Hthrow as <-. split; [reflexivity|]. right. exists rankPlan. eauto.
Qed.

(** X19. What the timeline draws.  When no rank and no rank plan has the
    name of a member of [Object.prototype] for its id, the rows are made;
    they can only fail to be made by a TypeError at such an id, of a rank
    without rank plan or of a rank plan without assignment.  And in the rows
    that are made, a feature is in a row exactly when it is the feature of
    an assignment whose rank plan exists and belongs to a rank that exists:
    an assignment of a rank plan that is not there, or whose rank is not
    there, is not drawn. *)
Theorem drawn_iff (s : GanttState) :
  (ordinary_ids s → ∃ rows, timeline s = Ok rows) ∧
  (∀ e, timeline s = Throw e →
     e = TypeError ∧
     ((∃ rank, rank ∈ ranks s ∧ is_Some (Object_prototype (Rank.id rank)) ∧
               filter (λ p, RankPlan.rankId p = Rank.id rank) (rankPlans s) = []) ∨
      (∃ rankPlan, rankPlan ∈ rankPlans s ∧
                   is_Some (Object_prototype (RankPlan.id rankPlan)) ∧
                   filter (λ a, Assignment.rankPlanId a = RankPlan.id rankPlan)
                     (assignments s) = []))) ∧
  (∀ rows feature,
     timeline s = Ok rows →
     (∃ row, row ∈ rows ∧ feature ∈ row.2) ↔
     ∃ a rankPlan rank,
       a ∈ assignments s ∧ rankPlan ∈ rankPlans s ∧ rank ∈ ranks s ∧
       Assignment.rankPlanId a = RankPlan.id rankPlan ∧
       RankPlan.rankId rankPlan = Rank.id rank ∧
       feature = assignmentToFeature a).
Proof.
  split_and!.
  - apply timeline_returns.
  - apply timeline_throws.
  - intros rows feature Hrows. split.
    + intros (row & Hrow & Hfeature).
      apply (timeline_rows s rows row Hrows) in Hrow
        as (rank & Hrank & HrankPlan & Hof & Hmade).
      apply timeline_row_Ok in Hmade as (own & Hown & Hrow).
      rewrite Hrow in Hfeature, HrankPlan, Hof. cbn [fst snd] in *.
      apply list_elem_of_fmap in Hfeature as (a & -> & Ha).
      apply group_or_empty_elements in Hown. rewrite Hown in Ha.
      apply list_elem_of_filter in Ha as [Hplan Ha].
      exists a, row.1, rank. rewrite Hrow. done.
    + intros (a & rankPlan & rank & Ha & HrankPlan & Hrank & Hplan & Hof & ->).
      assert (filter (λ a, Assignment.rankPlanId a = RankPlan.id rankPlan) (assignments s)
              ≠ []) as Hown.
      { intros Hnone. eapply (filter_nil_not_elem_of _ _ a); [exact Hnone|exact Hplan|].
        exact Ha. }
      exists (rankPlan, assignmentToFeature
                          <$> filter (λ a, Assignment.rankPlanId a = RankPlan.id rankPlan)
                                (assignments s)).
      split.
      * apply (timeline_rows s rows _ Hrows). exists rank. cbn [fst].
        split_and!; [done..|]. apply timeline_row_Ok.
        eexists. split; [|reflexivity].
        apply (group_or_empty_own Assignment.rankPlanId), Hown.
      * cbn [snd]. apply list_elem_of_fmap. exists a. split; [reflexivity|].
        apply list_elem_of_filter. done.
Qed.

(** X20. The render function of a row finds the assignment of every feature
    of the row: for a feature that the row was given, [find] on the
    assignments of the row returns an assignment, never [undefined]; it has
    the id of the feature, it is an assignment of the store and of the rank
    plan of the row; and when no two assignments share an id, the feature is
    the feature of that assignment. *)
Theorem row_feature_found (s : GanttState)
    (rows : list (RankPlan.t * list GanttFeature.t))
    (row : RankPlan.t * list GanttFeature.t) (feature : GanttFeature.t) :
  timeline s = Ok rows → row ∈ rows → feature ∈ row.2 →
  ∃ own a,
    planAssignments s row.1 = Elements own ∧
    find_assignment own feature = Some a ∧
    Assignment.id a = GanttFeature.id feature ∧
    a ∈ assignments s ∧
    Assignment.rankPlanId a = RankPlan.id row.1 ∧
    (NoDup (Assignment.id <$> assignments s) → assignmentToFeature a = feature).
Proof.
  intros Hrows Hrow Hfeature.
  apply (timeline_rows s rows row Hrows) in Hrow as (rank & _ & _ & _ & Hmade).
  apply timeline_row_Ok in Hmade as (own & Hown & Hrow).
  rewrite Hrow in Hfeature. cbn [snd] in Hfeature.
  apply list_elem_of_fmap in Hfeature as (a0 & -> & Ha0).
  destruct (list_find_elem_of (λ a, Assignment.id a = Assignment.id a0) own a0 Ha0 eq_refl)
    as [[i a] Hfind].
  exists own, a. split; [exact Hown|].
  unfold find_assignment. cbn [GanttFeature.id assignmentToFeature].
  rewrite Hfind. split; [reflexivity|].
  apply list_find_Some in Hfind as (Hi & Hid & _).
  apply list_elem_of_lookup_2 in Hi.
  apply group_or_empty_elements in Hown. rewrite Hown in Hi, Ha0.
  apply list_elem_of_filter in Hi as [Hplan Ha].
  apply list_elem_of_filter in Ha0 as [_ Ha0].
  split_and!; [exact Hid|exact Ha|exact Hplan|].
  intros Hids.
  rewrite (same_id_same_entity Assignment.id (assignments s) a a0 Hids Ha Ha0 Hid).
  reflexivity.
Qed.

(** ** The span of a rank plan *)

Lemma Math_min_NaN (xs : list number) : NaN ∈ xs → Math_min xs = NaN.
Proof.
  induction xs as [|x xs IH]; [by intros ?%elem_of_nil|].
  intros [<-|Hin]%elem_of_cons; [reflexivity|].
  change (Math_min (x :: xs)) with (number_min x (Math_min xs)).
  rewrite IH by exact Hin. by destruct x.
Qed.

Lemma Math_max_NaN (xs : list number) : NaN ∈ xs → Math_max xs = NaN.
Proof.
  induction xs as [|x xs IH]; [by intros ?%elem_of_nil|].
  intros [<-|Hin]%elem_of_cons; [reflexivity|].
  change (Math_max (x :: xs)) with (number_max x (Math_max xs)).
  rewrite IH by exact Hin. by destruct x.
Qed.

(** X21. One invalid plan date makes the span of the rank plan invalid: when
    an assignment of the rank plan has an invalid plan start date, the
    representative feature of the plan is made, and it starts at an invalid
    date, whatever the other assignments; and the same for the end. *)
Theorem invalid_date_invalidates_span (today : time) (assignments : list Assignment.t)
    (rankPlan : RankPlan.t) (a : Assignment.t) :
  a ∈ assignments → Assignment.rankPlanId a = RankPlan.id rankPlan →
  ∃ feature,
    representativeFeature today (assignmentsByRankPlan assignments) rankPlan = Ok feature ∧
    (Assignment.planStartDate a = None → GanttFeature.startAt feature = None) ∧
    (Assignment.planEndDate a = None → GanttFeature.endAt feature = None).
Proof.
  intros Ha Hplan.
  assert (a ∈ filter (λ a, Assignment.rankPlanId a = RankPlan.id rankPlan) assignments)
    as Hown by (apply list_elem_of_filter; done).
  rewrite (representativeFeature_own today assignments rankPlan).
  2: { intros Hnil. rewrite Hnil in Hown. by apply elem_of_nil in Hown. }
  eexists. split; [reflexivity|]. cbn [GanttFeature.startAt GanttFeature.endAt].
  split; intros Hinvalid.
  - rewrite Math_min_NaN; [reflexivity|].
    apply list_elem_of_fmap. exists None. split; [reflexivity|].
    apply list_elem_of_fmap. exists a. done.
  - rewrite Math_max_NaN; [reflexivity|].
    apply list_elem_of_fmap. exists None. split; [reflexivity|].
    apply list_elem_of_fmap. exists a. done.
Qed.

Lemma instants_exist (ds : list time) :
  Forall (λ d, is_Some (instant d)) ds → ∃ zs, instant <$> ds = Some <$> zs.
Proof.
  induction 1 as [|d ds [z Hd] _ [zs Hzs]]; [by exists []|].
  exists (z :: zs). rewrite !fmap_cons, Hd, Hzs. reflexivity.
Qed.

Lemma instant_elem_of (ds : list time) (zs : list Z) (d : time) (z : Z) :
  instant <$> ds = Some <$> zs → d ∈ ds → instant d = Some z → z ∈ zs.
Proof.
  intros Heq Hd Hz.
  assert (Some z ∈ Some <$> zs) as Hin.
  { rewrite <-Heq, <-Hz. apply list_elem_of_fmap_2, Hd. }
  apply list_elem_of_fmap in Hin as (z' & [= ->] & Hin). exact Hin.
Qed.

(** X22. The span of a rank plan is well ordered when its assignments are:
    when the rank plan has an assignment, every plan date of its assignments
    is an instant, and one of them starts no later than it ends, the
    representative feature is made, it starts and ends at instants, and it
    starts no later than it ends. *)
Theorem representative_span_ordered (today : time) (assignments : list Assignment.t)
    (rankPlan : RankPlan.t) (a : Assignment.t) (s e : Z) :
  let own := filter (λ a, Assignment.rankPlanId a = RankPlan.id rankPlan) assignments in
  Forall (λ a, is_Some (instant (Assignment.planStartDate a)) ∧
               is_Some (instant (Assignment.planEndDate a))) own →
  a ∈ own →
  instant (Assignment.planStartDate a) = Some s →
  instant (Assignment.planEndDate a) = Some e →
  (s ≤ e)%Z →
  ∃ feature s' e',
    representativeFeature today (assignmentsByRankPlan assignments) rankPlan = Ok feature ∧
    GanttFeature.startAt feature = Some s' ∧
    GanttFeature.endAt feature = Some e' ∧ (s' ≤ e')%Z.
Proof.
  intros own Hinstants Ha Hs He Hse.
  assert (own ≠ []) as Hown.
  { intros Hnil. rewrite Hnil in Ha. by apply elem_of_nil in Ha. }
  rewrite (representativeFeature_own today assignments rankPlan Hown). fold own.
  destruct (instants_exist (Assignment.planStartDate <$> own)) as [starts Hstarts].
  { apply Forall_fmap. eapply Forall_impl; [exact Hinstants|]. by intros ? [? _]. }
  destruct (instants_exist (Assignment.planEndDate <$> own)) as [ends Hends].
  { apply Forall_fmap. eapply Forall_impl; [exact Hinstants|]. by intros ? [_ ?]. }
  assert (∀ date : Assignment.t → time, date <$> own ≠ []) as Hdates.
  { intros date Hnil%fmap_nil_inv. exact (Hown Hnil). }
  destruct (earliest_instant _ _ (Hdates _) Hstarts) as (s' & Hs' & _ & Hmin).
  destruct (latest_instant _ _ (Hdates _) Hends) as (e' & He' & _ & Hmax).
  eexists _, s', e'. split; [reflexivity|]. cbn [GanttFeature.startAt GanttFeature.endAt].
  split_and!; [exact Hs'|exact He'|].
  assert (s ∈ starts) as Hin_s.
  { eapply instant_elem_of; [exact Hstarts| |exact Hs]. apply list_elem_of_fmap_2, Ha. }
  assert (e ∈ ends) as Hin_e.
  { eapply instant_elem_of; [exact Hends| |exact He]. apply list_elem_of_fmap_2, Ha. }
  specialize (Hmin s Hin_s). specialize (Hmax e Hin_e). lia.
Qed.

(** ** The dialogs *)

(** X23. A closed dialog holds nothing: however the component was mounted
    and whatever the events since, while the assignment dialog is closed no
    assignment is under edit and no rank plan is preselected, and while the
    rank-plan dialog is closed no rank is preselected; the next dialog
    therefore opens on what its own event sets. *)
Theorem closed_dialog_holds_nothing (w : World) :
  reachable w →
  (assignmentModalOpen (state w) = false →
   editingAssignment (state w) = None ∧
   selectedRankPlanForAssignment (state w) = None) ∧
  (rankPlanModalOpen (state w) = false → selectedRankForPlan (state w) = None).
Proof.
  induction 1 as [rs ps asg ms ls|e w _ [Hassignment HrankPlan]].
  - unfold mounted. rewrite render_state. split; intros _; [split|]; reflexivity.
  - rewrite dispatch_state.
    destruct e as [id|id date|id startAt [endAt|]| |id data|rankId|id data|rankPlanId
                   |id data|a|id|[]|[]|[]|[]];
      cbn [handle];
      unfold handleSaveRank, handleSaveRankPlan, handleSaveAssignment;
      (split; intros Hclosed; repeat case_match; cbn in Hclosed |- *;
       try discriminate Hclosed; auto).
Qed.

(** * The further statements at concrete inputs *)

(** The markers of the sample store. *)
Lemma JSON_parse_serialized_witness :
  (text ← serializeForStorage (snapshot Markers sample_state);
   JSON_parse (default "undefined" text))
  = Ok (VArr [VObj [("id", VStr "m1"); ("date", VStr "2024-01-01T00:00:00.000Z");
                    ("label", VStr "New Marker");
                    ("className", VStr "bg-blue-100 text-blue-900")]]).
Proof.
  exact (JSON_parse_serialized (snapshot Markers sample_state) eq_refl).
Defined.

Lemma codec_roundtrip_plain_witness :
  @codec_roundtrip reference_engine (snapshot Ranks sample_state)
  = Ok (snapshot Ranks sample_state).
Proof.
  apply (@codec_roundtrip_plain reference_engine (snapshot Ranks sample_state));
    reflexivity.
Defined.

Lemma deserializeFromStorage_tagged_witness :
  @deserializeFromStorage reference_engine
    (JSON_text (tagged (snapshot Markers sample_state)))
  = Ok (snapshot Markers sample_state).
Proof.
  apply (@deserializeFromStorage_tagged reference_engine). vm_compute. reflexivity.
Defined.

Lemma ranks_and_rank_plans_reload_witness :
  @initial_state reference_engine Ranks (localStorage (mounted sample_state ∅)) (VArr [])
  = Ok (snapshot Ranks sample_state).
Proof.
  apply (@ranks_and_rank_plans_reload reference_engine Ranks sample_state
           (localStorage (mounted sample_state ∅)) (VArr []));
    [left; reflexivity | vm_compute; reflexivity].
Defined.

Lemma reads_back_sample (tv : Z) :
  iso_parse (iso_string tv) = Some tv → @reads_back reference_engine (Some tv).
Proof. intros Htv. exists tv. split; [reflexivity|exact Htv]. Qed.

Lemma assignments_reload_witness :
  ∃ revived,
    @initial_state reference_engine Assignments (localStorage (mounted sample_state ∅))
      (VArr []) = Ok (VArr revived) ∧
    Forall2 same_fields revived
      (Assignment.to_value <$> [sample_assignment; sample_reliever]).
Proof.
  apply (@assignments_reload reference_engine sample_state
           (localStorage (mounted sample_state ∅)) (VArr [])).
  - discriminate.
  - repeat apply List.Forall_cons; try apply List.Forall_nil;
      (split_and!; [apply reads_back_sample; vm_compute; reflexivity
                   |apply reads_back_sample; vm_compute; reflexivity
                   |intros d [= <-] || (intros d Hd; discriminate Hd)..]);
      apply reads_back_sample; vm_compute; reflexivity.
  - vm_compute. reflexivity.
Defined.

Lemma markers_reload_witness :
  ∃ revived,
    @initial_state reference_engine Markers (localStorage (mounted sample_state ∅))
      (VArr []) = Ok (VArr revived) ∧
    Forall2 same_fields revived (Marker.to_value <$> [sample_marker]).
Proof.
  apply (@markers_reload reference_engine sample_state
           (localStorage (mounted sample_state ∅)) (VArr [])).
  - discriminate.
  - repeat apply List.Forall_cons; try apply List.Forall_nil.
    apply reads_back_sample. vm_compute. reflexivity.
  - vm_compute. reflexivity.
Defined.

(** A component mounted with one assignment, of no rank plan of the store,
    whose plan start date and actual end date are invalid. *)
Lemma invalid_dates_reload_witness :
  let a := Assignment.mk "a9" None Assignment.main None (Some 86400000%Z) None
             (Some None) "p9" in
  let w := mounted (launch [] [] [a] []) ∅ in
  ∃ revived,
    @initial_state reference_engine Assignments (localStorage w) (VArr [])
    = Ok (VArr revived) ∧
    Forall2 (@epoch_for_invalid) revived [a].
Proof.
  apply (@invalid_dates_reload reference_engine
           (launch [] []
              [Assignment.mk "a9" None Assignment.main None (Some 86400000%Z) None
                 (Some None) "p9"] [])).
  - discriminate.
  - vm_compute. reflexivity.
Defined.

(** The sample store, when a third assignment is saved. *)
Lemma ids_stay_unique_witness :
  unique_ids (state (dispatch (handle (SaveAssignment "a3"
    (AssignmentData.mk None Assignment.main (Some 0%Z) (Some 86400000%Z) None None "p1")))
    sample_world)).
Proof.
  apply (ids_stay_unique _ sample_world).
  - unfold unique_ids. split_and!; apply (bool_decide_unpack _); vm_compute; exact I.
  - apply (bool_decide_unpack _). vm_compute. exact I.
Defined.

(** The first rank of a component mounted empty. *)
Lemma rank_saves_only_append_witness :
  ranks (state (dispatch (handleSaveRank "r1" (RankData.mk "Officer"))
                  (dispatch (handle CreateRank) (mounted (launch [] [] [] []) ∅))))
  = [Rank.mk "r1" "Officer"].
Proof.
  exact (proj1 (rank_saves_only_append _ "r1"
                  (reachable_event CreateRank _ (reachable_mounted [] [] [] [] ∅)))
               (RankData.mk "Officer")).
Defined.

Lemma create_then_delete_witness :
  let w := mounted (launch [] [] [sample_assignment] []) ∅ in
  assignments (state (dispatch (handleDeleteAssignment "a3")
                        (dispatch (handleSaveAssignment "a3"
                          (AssignmentData.mk None Assignment.main (Some 0%Z)
                             (Some 86400000%Z) None None "p1")) w)))
  = [sample_assignment].
Proof.
  apply (proj1 (create_then_delete (mounted (launch [] [] [sample_assignment] []) ∅)
                  "a3")).
  - reflexivity.
  - apply (bool_decide_unpack _). vm_compute. exact I.
Defined.

Lemma move_to_own_dates_witness :
  assignments (state (dispatch (handleMoveAssignment "a1" (Some 1704067200000%Z)
                                  (Some (Some 1706659200000%Z))) sample_world))
  = [sample_assignment; sample_reliever].
Proof.
  apply (move_to_own_dates sample_world sample_assignment).
  - apply (bool_decide_unpack _). vm_compute. exact I.
  - apply list_elem_of_here.
Defined.

Lemma edit_then_save_witness :
  let assignmentData :=
    AssignmentData.mk (Some "A. Reyes") Assignment.main (Some 1704067200000%Z)
      (Some 1706659200000%Z) None None "p1" in
  assignments (state (dispatch (handleSaveAssignment "a3" assignmentData)
                        (dispatch (handleEditAssignment sample_assignment) sample_world)))
  = [with_id "a1" assignmentData; sample_reliever].
Proof.
  apply (edit_then_save sample_world sample_assignment 0).
  - apply (bool_decide_unpack _). vm_compute. exact I.
  - reflexivity.
Defined.

(** The one row of the sample store. *)
Lemma drawn_iff_witness :
  timeline sample_state
  = Ok [(RankPlan.mk "p1" "2024 Plan" "r1",
         [assignmentToFeature sample_assignment; assignmentToFeature sample_reliever])].
Proof.
  destruct (proj1 (drawn_iff sample_state)) as [rows Hrows].
  - split; repeat apply List.Forall_cons; try apply List.Forall_nil; reflexivity.
  - vm_compute. reflexivity.
Defined.

(** The feature of the reliever in that row. *)
Lemma row_feature_found_witness :
  ∃ own a,
    planAssignments sample_state (RankPlan.mk "p1" "2024 Plan" "r1") = Elements own ∧
    find_assignment own (assignmentToFeature sample_reliever) = Some a ∧
    Assignment.id a = "a2" ∧
    a ∈ assignments sample_state ∧
    Assignment.rankPlanId a = "p1" ∧
    (NoDup (Assignment.id <$> assignments sample_state) →
     assignmentToFeature a = assignmentToFeature sample_reliever).
Proof.
  apply (row_feature_found sample_state
           [(RankPlan.mk "p1" "2024 Plan" "r1",
             [assignmentToFeature sample_assignment; assignmentToFeature sample_reliever])]
           (RankPlan.mk "p1" "2024 Plan" "r1",
            [assignmentToFeature sample_assignment; assignmentToFeature sample_reliever])).
  - vm_compute. reflexivity.
  - apply list_elem_of_here.
  - apply list_elem_of_further, list_elem_of_here.
Defined.

(** The sample assignment, dropped on no date, beside the reliever. *)
Lemma invalid_date_invalidates_span_witness :
  ∃ feature,
    representativeFeature None
      (assignmentsByRankPlan [sample_reliever; moved None None sample_assignment])
      (RankPlan.mk "p1" "2024 Plan" "r1") = Ok feature ∧
    GanttFeature.startAt feature = None ∧ GanttFeature.endAt feature = None.
Proof.
  destruct (invalid_date_invalidates_span None
              [sample_reliever; moved None None sample_assignment]
              (RankPlan.mk "p1" "2024 Plan" "r1") (moved None None sample_assignment))
    as (feature & Hfeature & Hstart & Hend).
  - apply list_elem_of_further, list_elem_of_here.
  - reflexivity.
  - exists feature. split; [exact Hfeature|].
    split; [apply Hstart | apply Hend]; reflexivity.
Defined.

Lemma representative_span_ordered_witness :
  ∃ feature s' e',
    representativeFeature None
      (assignmentsByRankPlan [sample_assignment; sample_reliever])
      (RankPlan.mk "p1" "2024 Plan" "r1") = Ok feature ∧
    GanttFeature.startAt feature = Some s' ∧
    GanttFeature.endAt feature = Some e' ∧ (s' ≤ e')%Z.
Proof.
  apply (representative_span_ordered None [sample_assignment; sample_reliever]
           (RankPlan.mk "p1" "2024 Plan" "r1") sample_assignment
           1704067200000 1706659200000).
  - repeat apply List.Forall_cons; try apply List.Forall_nil;
      split; eexists; vm_compute; reflexivity.
  - apply list_elem_of_here.
  - vm_compute. reflexivity.
  - vm_compute. reflexivity.
  - lia.
Defined.

(** The assignment dialog, opened on the sample assignment and closed. *)
Lemma closed_dialog_holds_nothing_witness :
  let w := dispatch (handle (AssignmentModalOpenChange false))
             (dispatch (handle (EditAssignment sample_assignment))
                (mounted (launch [] [] [sample_assignment] []) ∅)) in
  editingAssignment (state w) = None ∧ selectedRankPlanForAssignment (state w) = None.
Proof.
  apply (closed_dialog_holds_nothing _
           (reachable_event (AssignmentModalOpenChange false) _
              (reachable_event (EditAssignment sample_assignment) _
                 (reachable_mounted [] [] [sample_assignment] [] ∅)))).
  reflexivity.
Defined.
